(** * html_to_md: the HTML to Markdown converter

    A shallow embedding of the converter's core: the sanitizer
    ([removeUnwantedElements]), the range extractor
    ([extractSpecificSection], [extractElementsRange], [getNextElement]),
    the Markdown emitter ([processElement], [convertElementToMarkdown],
    [processListItems], [processTable]) and the two versions of
    [convertHtmlToMarkdown] (the whole body in [js/converter.js], the scoped
    one in the second script).  The UI wiring of the class is left out. *)

From Stdlib Require Import List NArith Arith Lia Bool String Ascii DecimalString.
Import ListNotations.

Set Implicit Arguments.
Set Warnings "-register-all".

(** ** JavaScript strings

    A JavaScript string is a sequence of 16-bit code units; every operation
    the converter uses ([trim], [includes], [join], [replace], [+]) works on
    code units. *)
Module JsString.

Definition jsstring : Type := list N.

(** An ASCII literal of the source. *)
Definition lit (s : string) : jsstring :=
  map N_of_ascii (list_ascii_of_string s).

(** The escape [\n] of the source's literals. *)
Definition nl : jsstring := [10%N].

(** Truthiness of a string: the empty string is the only falsy one. *)
Definition truthy (s : jsstring) : bool :=
  match s with
  | [] => false
  | _ :: _ => true
  end.

Fixpoint eqb (a b : jsstring) : bool :=
  match a, b with
  | [], [] => true
  | x :: a', y :: b' => N.eqb x y && eqb a' b'
  | _, _ => false
  end.

(** Strict equality of two strings. *)
Notation "a === b" := (eqb a b) (at level 45, no associativity).

(** WhiteSpace and LineTerminator code units, the ones [trim] strips. *)
Definition isWhiteSpace (c : N) : bool :=
  ((9 <=? c) && (c <=? 13) || (c =? 32) || (c =? 160) || (c =? 5760)
   || (8192 <=? c) && (c <=? 8202) || (c =? 8232) || (c =? 8233)
   || (c =? 8239) || (c =? 8287) || (c =? 12288) || (c =? 65279))%N.

Fixpoint trimStart (s : jsstring) : jsstring :=
  match s with
  | [] => []
  | c :: s' => if isWhiteSpace c then trimStart s' else s
  end.

Definition trimEnd (s : jsstring) : jsstring := rev (trimStart (rev s)).

Definition trim (s : jsstring) : jsstring := trimStart (trimEnd s).

Fixpoint startsWith (s prefix : jsstring) : bool :=
  match prefix, s with
  | [], _ => true
  | p :: prefix', c :: s' => N.eqb c p && startsWith s' prefix'
  | _ :: _, [] => false
  end.

(** [s.includes(sub)]: [sub] occurs in [s] as a contiguous run. *)
Fixpoint includes (s sub : jsstring) : bool :=
  match s with
  | [] => startsWith [] sub
  | _ :: s' => startsWith s sub || includes s' sub
  end.

(** [parts.join(sep)]. *)
Fixpoint join (sep : jsstring) (parts : list jsstring) : jsstring :=
  match parts with
  | [] => []
  | [p] => p
  | p :: rest => p ++ sep ++ join sep rest
  end.

(** [s.replace(/\n/g, ' ')]. *)
Definition replaceNewlines (s : jsstring) : jsstring :=
  map (fun c => if N.eqb c 10 then 32%N else c) s.

(** A number inside a template literal: its decimal digits. *)
Definition numberToString (n : nat) : jsstring :=
  lit (NilZero.string_of_uint (Nat.to_uint n)).

(** [array.map((x, index) => ...)]. *)
Fixpoint mapiFrom (A B : Type) (f : A -> nat -> B) (index : nat) (l : list A) : list B :=
  match l with
  | [] => []
  | x :: l' => f x index :: mapiFrom f (S index) l'
  end.

Definition mapi (A B : Type) (f : A -> nat -> B) (l : list A) : list B :=
  mapiFrom f 0 l.

(** [array.forEach((x, index) => ...)] over an accumulator the callback
    updates. *)
Fixpoint forEachiFrom (A R : Type) (f : R -> A -> nat -> R) (index : nat)
    (l : list A) (acc : R) : R :=
  match l with
  | [] => acc
  | x :: l' => forEachiFrom f (S index) l' (f acc x index)
  end.

Definition forEachi (A R : Type) (f : R -> A -> nat -> R) (l : list A) (acc : R) : R :=
  forEachiFrom f 0 l acc.

End JsString.

(** ** The document tree *)
Module Dom.
Import JsString.

(** A node of the parsed tree.  [Element] keeps the tag as the program reads
    it, [element.tagName.toLowerCase()], which is also the name type
    selectors match.  [Comment] stands for every node that is neither a text
    node nor an element (comments, the doctype): the program skips them. *)
Inductive node : Type :=
| Text (data : jsstring)
| Comment (data : jsstring)
| Element (tagName : jsstring) (attributes : list (jsstring * jsstring))
    (childNodes : list node).

(** The document: its child nodes (doctype, comments, the root element). *)
Record document : Type := Document { documentChildNodes : list node }.

Definition childNodes (n : node) : list node :=
  match n with
  | Element _ _ kids => kids
  | _ => []
  end.

Definition isElement (n : node) : bool :=
  match n with
  | Element _ _ _ => true
  | _ => false
  end.

(** [element.children]: the child nodes that are elements. *)
Definition children (n : node) : list node := filter isElement (childNodes n).

Definition tagNameLower (n : node) : jsstring :=
  match n with
  | Element tag _ _ => tag
  | _ => []
  end.

(** [node.textContent]: the data of a text node; for an element the
    concatenated data of its text descendants, comments left out. *)
Fixpoint textContent (n : node) : jsstring :=
  match n with
  | Text data => data
  | Comment data => data
  | Element _ _ kids =>
      flat_map (fun kid => match kid with
                           | Comment _ => []
                           | _ => textContent kid
                           end) kids
  end.

(** [element.getAttribute(name)]; [None] is [null]. *)
Fixpoint lookupAttribute (attrs : list (jsstring * jsstring)) (name : jsstring)
    : option jsstring :=
  match attrs with
  | [] => None
  | (k, v) :: attrs' => if eqb k name then Some v else lookupAttribute attrs' name
  end.

Definition getAttribute (n : node) (name : jsstring) : option jsstring :=
  match n with
  | Element _ attrs _ => lookupAttribute attrs name
  | _ => None
  end.

(** A selector of the program: ['*'], or a list of tag names
    (['tr'], ['td, th']). *)
Inductive selector : Type :=
| Universal
| Tags (names : list jsstring).

Definition tagIn (names : list jsstring) (tag : jsstring) : bool :=
  existsb (eqb tag) names.

Definition matches (sel : selector) (n : node) : bool :=
  match n with
  | Element tag _ _ =>
      match sel with
      | Universal => true
      | Tags names => tagIn names tag
      end
  | _ => false
  end.

(** The element descendants of a node in document order (pre-order, the
    node itself left out). *)
Fixpoint descendants (n : node) : list node :=
  match n with
  | Element _ _ kids =>
      flat_map (fun kid => if isElement kid then kid :: descendants kid else []) kids
  | _ => []
  end.

(** [element.querySelectorAll(sel)] and [element.querySelector(sel)]. *)
Definition querySelectorAll (n : node) (sel : selector) : list node :=
  filter (matches sel) (descendants n).

Definition querySelector (n : node) (sel : selector) : option node :=
  find (matches sel) (descendants n).

(** [document.querySelectorAll(sel).forEach(el => el.remove())] below a node:
    every matching element is detached from its parent.  A match nested in
    another match leaves with it (its own [remove] then only detaches it from
    a parent that is no longer in the document). *)
Fixpoint removeAll (sel : selector) (n : node) : node :=
  match n with
  | Element tag attrs kids =>
      Element tag attrs
        (flat_map (fun kid => if matches sel kid then [] else [removeAll sel kid]) kids)
  | _ => n
  end.

Definition removeAllIn (sel : selector) (doc : document) : document :=
  Document
    (flat_map (fun kid => if matches sel kid then [] else [removeAll sel kid])
       (documentChildNodes doc)).

(** [doc.documentElement] and [doc.body] ([None] is [null]). *)
Definition documentElement (doc : document) : option node :=
  find isElement (documentChildNodes doc).

Definition body (doc : document) : option node :=
  match documentElement doc with
  | Some html =>
      if eqb (tagNameLower html) (lit "html")
      then find (fun kid => tagIn [lit "body"; lit "frameset"] (tagNameLower kid))
             (children html)
      else None
  | None => None
  end.

(** How a call ends: it returns a string or throws an [Error]. *)
Inductive completion : Type :=
| Return (value : jsstring)
| Throw (message : jsstring).

(** *** Elements as the program holds them

    The range extractor compares elements by identity and walks to siblings
    and parents.  A [handle] is the place of a node in the document: its index
    among its parent's child nodes, followed by the parent's handle; the
    document itself is [[]].  An [elementRef] is an element object: its place
    and the element found there. *)
Definition handle : Type := list nat.

Record elementRef : Type := ElementRef { position : handle; target : node }.

(** [a === b] on element objects. *)
Definition sameElement (a b : elementRef) : bool :=
  if list_eq_dec Nat.eq_dec (position a) (position b) then true else false.

Fixpoint childNodesAt (doc : document) (h : handle) : list node :=
  match h with
  | [] => documentChildNodes doc
  | index :: parent =>
      match nth_error (childNodesAt doc parent) index with
      | Some n => childNodes n
      | None => []
      end
  end.

Definition nodeAt (doc : document) (h : handle) : option node :=
  match h with
  | [] => None
  | index :: parent => nth_error (childNodesAt doc parent) index
  end.

Section DocumentOrder.
Variable below : handle -> node -> list elementRef.

(** The elements among the child nodes [kids] of [parent], each followed
    by the elements below it; [index] is the place of the first of [kids]. *)
Fixpoint eachChild (parent : handle) (index : nat) (kids : list node)
    : list elementRef :=
  match kids with
  | [] => []
  | kid :: rest =>
      (if isElement kid
       then ElementRef (index :: parent) kid :: below (index :: parent) kid
       else [])
      ++ eachChild parent (S index) rest
  end.
End DocumentOrder.

(** The elements below the node [n] placed at [h], in document order. *)
Fixpoint descendantRefs (h : handle) (n : node) : list elementRef :=
  match n with
  | Element _ _ kids => eachChild descendantRefs h 0 kids
  | _ => []
  end.

(** [doc.querySelectorAll('*')]. *)
Definition allElements (doc : document) : list elementRef :=
  eachChild descendantRefs [] 0 (documentChildNodes doc).

(** The index of the first element of [nodes], counted from [index]. *)
Fixpoint firstElementFrom (index : nat) (nodes : list node) : option (nat * node) :=
  match nodes with
  | [] => None
  | n :: rest => if isElement n then Some (index, n) else firstElementFrom (S index) rest
  end.

(** [element.nextElementSibling] ([None] is [null]). *)
Definition nextElementSibling (doc : document) (h : handle) : option elementRef :=
  match h with
  | [] => None
  | index :: parent =>
      match firstElementFrom (S index) (skipn (S index) (childNodesAt doc parent)) with
      | Some (next, n) => Some (ElementRef (next :: parent) n)
      | None => None
      end
  end.

(** [element.parentElement]; the document's handle [[]] plays [null], the
    document not being an element. *)
Definition parentElement (h : handle) : handle := tl h.

(** [node.cloneNode(true)]: a copy of the node and of all below it. *)
Fixpoint cloneNode (n : node) : node :=
  match n with
  | Text data => Text data
  | Comment data => Comment data
  | Element tag attrs kids => Element tag attrs (map cloneNode kids)
  end.

(** The result of a loop that is run on fuel. *)
Inductive fuelled (A : Type) : Type :=
| Ran (a : A)
| OutOfFuel.
Arguments OutOfFuel {A}.

(** Nesting depth: 0 for a leaf that is not an element. *)
Fixpoint height (n : node) : nat :=
  match n with
  | Element _ _ kids => S (fold_right (fun kid h => Nat.max (height kid) h) 0 kids)
  | _ => 0
  end.

End Dom.

(** ** [js/converter.js] *)
Module ConverterJs.
Import JsString Dom.

Definition unwantedSelectors : list jsstring :=
  [lit "script"; lit "style"; lit "meta"; lit "link"; lit "noscript"].

Definition removeUnwantedElements (doc : document) : document :=
  fold_left (fun doc selector => removeAllIn (Tags [selector]) doc)
    unwantedSelectors doc.

(** [`${prefix}`] for a parameter that may be [null]. *)
Definition templateOf (prefix : option jsstring) : jsstring :=
  match prefix with
  | Some s => s
  | None => lit "null"
  end.

Section Methods.
(** [this.processElement], the method the others call back. *)
Variable this_processElement : node -> jsstring.

Definition processListItems_ (listElement : node) (prefix : option jsstring)
    (isOrdered : bool) : jsstring :=
  let items := filter (fun child => tagNameLower child === lit "li")
                 (children listElement) in
  join nl
    (mapi (fun item index =>
             let itemPrefix := if isOrdered
                               then numberToString (index + 1) ++ lit ". "
                               else templateOf prefix in
             itemPrefix ++ trim (this_processElement item))
       items).

Definition processTable_ (table : node) : jsstring :=
  let rows := querySelectorAll table (Tags [lit "tr"]) in
  if List.length rows =? 0 then []
  else
    let result := nl in
    let result :=
      forEachi (fun result row rowIndex =>
                  let cells := querySelectorAll row (Tags [lit "td"; lit "th"]) in
                  let cellContents :=
                    map (fun cell => replaceNewlines (trim (this_processElement cell)))
                      cells in
                  let result :=
                    result ++ lit "| " ++ join (lit " | ") cellContents ++ lit " |" ++ nl in
                  if (rowIndex =? 0)
                     && (match querySelector row (Tags [lit "th"]) with
                         | Some _ => true
                         | None => false
                         end)
                  then result ++ lit "| "
                         ++ join (lit " | ") (map (fun _ => lit "---") cells)
                         ++ lit " |" ++ nl
                  else result)
        rows result in
    result ++ nl.

Definition convertElementToMarkdown_ (element : node) : jsstring :=
  let tagName := tagNameLower element in
  let text := trim (textContent element) in
  if negb (truthy text) && negb (tagIn [lit "br"; lit "hr"; lit "img"] tagName)
  then []
  else if tagName === lit "h1" then nl ++ lit "# " ++ text ++ nl ++ nl
  else if tagName === lit "h2" then nl ++ lit "## " ++ text ++ nl ++ nl
  else if tagName === lit "h3" then nl ++ lit "### " ++ text ++ nl ++ nl
  else if tagName === lit "h4" then nl ++ lit "#### " ++ text ++ nl ++ nl
  else if tagName === lit "h5" then nl ++ lit "##### " ++ text ++ nl ++ nl
  else if tagName === lit "h6" then nl ++ lit "###### " ++ text ++ nl ++ nl
  else if tagName === lit "p" then nl ++ this_processElement element ++ nl ++ nl
  else if tagName === lit "br" then nl
  else if tagName === lit "hr" then nl ++ lit "---" ++ nl ++ nl
  else if tagName === lit "strong" || tagName === lit "b" then lit "**" ++ text ++ lit "**"
  else if tagName === lit "em" || tagName === lit "i" then lit "*" ++ text ++ lit "*"
  else if tagName === lit "code" then lit "`" ++ text ++ lit "`"
  else if tagName === lit "var" then lit "$" ++ text ++ lit "$"
  else if tagName === lit "pre" then
    let codeElement := querySelector element (Tags [lit "code"]) in
    let codeText := match codeElement with
                    | Some code => textContent code
                    | None => text
                    end in
    nl ++ lit "```" ++ nl ++ codeText ++ nl ++ lit "```" ++ nl ++ nl
  else if tagName === lit "blockquote"
  then nl ++ lit "> " ++ this_processElement element ++ nl ++ nl
  else if tagName === lit "a" then
    match getAttribute element (lit "href") with
    | Some href =>
        if truthy href then lit "[" ++ text ++ lit "](" ++ href ++ lit ")" else text
    | None => text
    end
  else if tagName === lit "img" then
    let alt := match getAttribute element (lit "alt") with
               | Some alt => alt
               | None => []
               end in
    match getAttribute element (lit "src") with
    | Some src =>
        if truthy src then lit "![" ++ alt ++ lit "](" ++ src ++ lit ")" else []
    | None => []
    end
  else if tagName === lit "ul" then nl ++ processListItems_ element (Some (lit "- ")) false ++ nl
  else if tagName === lit "ol" then nl ++ processListItems_ element None true ++ nl
  else if tagName === lit "li" then this_processElement element
  else if tagName === lit "table" then processTable_ element
  else if tagName === lit "div" || tagName === lit "span"
          || tagName === lit "section" || tagName === lit "article"
  then this_processElement element
  else this_processElement element.

(** The body of [processElement]'s loop: what one child node adds. *)
Definition appendNode (result : jsstring) (node : node) : jsstring :=
  match node with
  | Text _ =>
      let text := trim (textContent node) in
      if truthy text then result ++ text ++ lit " " else result
  | Element _ _ _ => result ++ convertElementToMarkdown_ node
  | Comment _ => result
  end.
End Methods.

(** [processElement] recurses into the tree through
    [convertElementToMarkdown]; [fuel] bounds the nesting it may enter. *)
Fixpoint processElementFuel (fuel : nat) (element : node) : jsstring :=
  match fuel with
  | 0 => []
  | S fuel' => fold_left (appendNode (processElementFuel fuel')) (childNodes element) []
  end.

(** The height of the element is all the fuel a call needs
    ([processElement_unfold] below). *)
Definition processElement (element : node) : jsstring :=
  processElementFuel (height element) element.

Definition convertElementToMarkdown : node -> jsstring :=
  convertElementToMarkdown_ processElement.

Definition processListItems : node -> option jsstring -> bool -> jsstring :=
  processListItems_ processElement.

Definition processTable : node -> jsstring := processTable_ processElement.

Section Convert.
(** [new DOMParser().parseFromString(html, 'text/html')]; [None] when the
    parser throws. *)
Variable parseFromString : jsstring -> option document.

(** The message of the [Error] the [catch] block throws. *)
Definition parseFailure : jsstring :=
  lit "HTML" ++ [35299; 26512; 12395; 22833; 25943; 12375; 12414; 12375; 12383]%N.

Definition convertHtmlToMarkdown (html : jsstring) : completion :=
  match parseFromString html with
  | None => Throw parseFailure
  | Some doc =>
      let doc := removeUnwantedElements doc in
      let body := match body doc with
                  | Some b => Some b
                  | None => documentElement doc
                  end in
      match body with
      | Some body => Return (trim (processElement body))
      | None => Throw parseFailure   (* [processElement(null)] is a TypeError *)
      end
  end.
End Convert.

(** [convertHtmlToMarkdown] with everything its [catch] block catches.  The
    [try] block holds the call [this.processElement(body)] too, and that call
    enters one more pair of calls for each level of the tree it renders: on
    an engine whose call stack the tree exhausts it ends in a [RangeError],
    which the [catch] block replaces by the fixed [Error] like a failure of
    the parser.  [processElementThrows] tells for which trees the call ends
    in an exception; [convertHtmlToMarkdown] above is this function where it
    never does ([unscoped_catching_returning] below). *)
Section ConvertCatching.
Variable parseFromString : jsstring -> option document.
Variable processElementThrows : node -> bool.

Definition convertHtmlToMarkdownCatching (html : jsstring) : completion :=
  match parseFromString html with
  | None => Throw parseFailure
  | Some doc =>
      let doc := removeUnwantedElements doc in
      let body := match body doc with
                  | Some b => Some b
                  | None => documentElement doc
                  end in
      match body with
      | Some body =>
          if processElementThrows body then Throw parseFailure
          else Return (trim (processElement body))
      | None => Throw parseFailure   (* [processElement(null)] is a TypeError *)
      end
  end.
End ConvertCatching.

End ConverterJs.

(** ** The second script: the scoped converter *)
Module Part001.
Import JsString Dom.

(** *** The range extractor *)

(** The start marker and the accepted end markers, as code units. *)
Definition startMarker : jsstring :=
  [23455; 34892; 26178; 38291; 21046; 38480; 58]%N.

Definition endMarkers : list jsstring :=
  [lit "Problem Statement";
   [21839; 38988; 25991]%N;
   [21839; 38988; 12398; 35500; 26126]%N].

(** The condition of the first loop of [extractSpecificSection]. *)
Definition hasStartMarker (element : elementRef) : bool :=
  let textContent := textContent (target element) in
  truthy textContent && includes textContent startMarker.

(** The condition of its second loop. *)
Definition hasEndMarker (element : elementRef) : bool :=
  let textContent := textContent (target element) in
  truthy textContent && existsb (includes textContent) endMarkers.

(** The first loop: the first element that has the start marker. *)
Fixpoint findStart (allElements : list elementRef) : option elementRef :=
  match allElements with
  | [] => None
  | element :: rest =>
      if hasStartMarker element then Some element else findStart rest
  end.

(** The second loop, over the same list, with its flag [foundStart]. *)
Fixpoint findEnd (allElements : list elementRef) (startElement : elementRef)
    (foundStart : bool) : option elementRef :=
  match allElements with
  | [] => None
  | element :: rest =>
      if sameElement element startElement then findEnd rest startElement true
      else if foundStart && hasEndMarker element then Some element
      else findEnd rest startElement foundStart
  end.

(** The loop [while (parent)] of [getNextElement]; [grandparent] is
    [parentElement parent]. *)
Fixpoint ancestorLoop (doc : document) (parent : handle) : option elementRef :=
  match parent with
  | [] => None
  | _ :: grandparent =>
      match nextElementSibling doc parent with
      | Some next => Some next
      | None => ancestorLoop doc grandparent
      end
  end.

Definition getNextElement (doc : document) (element : elementRef) : option elementRef :=
  match nextElementSibling doc (position element) with
  | Some next => Some next
  | None => ancestorLoop doc (parentElement (position element))
  end.

(** The loop [while (nextElement && nextElement !== endElement)] of
    [extractElementsRange]; one unit of fuel for each test of its condition. *)
Fixpoint collectLoop (fuel : nat) (doc : document) (nextElement : option elementRef)
    (endElement : elementRef) (elementsToInclude : list node) : fuelled (list node) :=
  match fuel with
  | 0 => OutOfFuel
  | S fuel' =>
      match nextElement with
      | None => Ran elementsToInclude
      | Some next =>
          if sameElement next endElement then Ran elementsToInclude
          else collectLoop fuel' doc (getNextElement doc next) endElement
                 (elementsToInclude ++ [cloneNode (target next)])
      end
  end.

(** The siblings to the right of a place and of each place above it: a bound
    on the steps [getNextElement] can take from there. *)
Fixpoint stepsBound (doc : document) (h : handle) : nat :=
  match h with
  | [] => 0
  | index :: parent =>
      (List.length (childNodesAt doc parent) - index) + stepsBound doc parent
  end.

(** The last statement of [extractElementsRange]: the container with the
    collected elements appended, or [null] when it has no element child. *)
Definition containerOf (elementsToInclude : list node) : option node :=
  let container := Element (lit "div") [] elementsToInclude in
  if 0 <? List.length (children container) then Some container else None.

Definition extractElementsRange (doc : document) (startElement endElement : elementRef)
    : fuelled (option node) :=
  let elementsToInclude := [cloneNode (target startElement)] in
  let nextElement := getNextElement doc startElement in
  match collectLoop (S (stepsBound doc (position startElement))) doc nextElement
          endElement elementsToInclude with
  | Ran elementsToInclude => Ran (containerOf elementsToInclude)
  | OutOfFuel => OutOfFuel
  end.

(** [console.log] apart, which leaves no trace in the result. *)
Definition extractSpecificSection (doc : document) : fuelled (option node) :=
  let allElements := allElements doc in
  match findStart allElements with
  | None => Ran None
  | Some startElement =>
      match findEnd allElements startElement false with
      | None => Ran None
      | Some endElement => extractElementsRange doc startElement endElement
      end
  end.

Definition unwantedSelectors : list jsstring :=
  [lit "script"; lit "style"; lit "meta"; lit "link"; lit "noscript"].

Definition removeUnwantedElements (doc : document) : document :=
  fold_left (fun doc selector => removeAllIn (Tags [selector]) doc)
    unwantedSelectors doc.

(** *** The emitter, as this script has it *)

(** [`${prefix}`] for a parameter that may be [null]. *)
Definition templateOf (prefix : option jsstring) : jsstring :=
  match prefix with
  | Some s => s
  | None => lit "null"
  end.

Section Methods.
(** [this.processElement], the method the others call back. *)
Variable this_processElement : node -> jsstring.

Definition processListItems_ (listElement : node) (prefix : option jsstring)
    (isOrdered : bool) : jsstring :=
  let items := filter (fun child => tagNameLower child === lit "li")
                 (children listElement) in
  join nl
    (mapi (fun item index =>
             let itemPrefix := if isOrdered
                               then numberToString (index + 1) ++ lit ". "
                               else templateOf prefix in
             itemPrefix ++ trim (this_processElement item))
       items).

Definition processTable_ (table : node) : jsstring :=
  let rows := querySelectorAll table (Tags [lit "tr"]) in
  if List.length rows =? 0 then []
  else
    let result := nl in
    let result :=
      forEachi (fun result row rowIndex =>
                  let cells := querySelectorAll row (Tags [lit "td"; lit "th"]) in
                  let cellContents :=
                    map (fun cell => replaceNewlines (trim (this_processElement cell)))
                      cells in
                  let result :=
                    result ++ lit "| " ++ join (lit " | ") cellContents ++ lit " |" ++ nl in
                  if (rowIndex =? 0)
                     && (match querySelector row (Tags [lit "th"]) with
                         | Some _ => true
                         | None => false
                         end)
                  then result ++ lit "| "
                         ++ join (lit " | ") (map (fun _ => lit "---") cells)
                         ++ lit " |" ++ nl
                  else result)
        rows result in
    result ++ nl.

Definition convertElementToMarkdown_ (element : node) : jsstring :=
  let tagName := tagNameLower element in
  let text := trim (textContent element) in
  if negb (truthy text) && negb (tagIn [lit "br"; lit "hr"; lit "img"] tagName)
  then []
  else if tagName === lit "h1" then nl ++ lit "# " ++ text ++ nl ++ nl
  else if tagName === lit "h2" then nl ++ lit "## " ++ text ++ nl ++ nl
  else if tagName === lit "h3" then nl ++ lit "### " ++ text ++ nl ++ nl
  else if tagName === lit "h4" then nl ++ lit "#### " ++ text ++ nl ++ nl
  else if tagName === lit "h5" then nl ++ lit "##### " ++ text ++ nl ++ nl
  else if tagName === lit "h6" then nl ++ lit "###### " ++ text ++ nl ++ nl
  else if tagName === lit "p" then nl ++ this_processElement element ++ nl ++ nl
  else if tagName === lit "br" then nl
  else if tagName === lit "hr" then nl ++ lit "---" ++ nl ++ nl
  else if tagName === lit "strong" || tagName === lit "b" then lit "**" ++ text ++ lit "**"
  else if tagName === lit "em" || tagName === lit "i" then lit "*" ++ text ++ lit "*"
  else if tagName === lit "code" then lit "`" ++ text ++ lit "`"
  else if tagName === lit "var" then lit "$" ++ text ++ lit "$"
  else if tagName === lit "pre" then
    let codeElement := querySelector element (Tags [lit "code"]) in
    let codeText := match codeElement with
                    | Some code => textContent code
                    | None => text
                    end in
    nl ++ lit "```" ++ nl ++ codeText ++ nl ++ lit "```" ++ nl ++ nl
  else if tagName === lit "blockquote"
  then nl ++ lit "> " ++ this_processElement element ++ nl ++ nl
  else if tagName === lit "a" then
    match getAttribute element (lit "href") with
    | Some href =>
        if truthy href then lit "[" ++ text ++ lit "](" ++ href ++ lit ")" else text
    | None => text
    end
  else if tagName === lit "img" then
    let alt := match getAttribute element (lit "alt") with
               | Some alt => alt
               | None => []
               end in
    match getAttribute element (lit "src") with
    | Some src =>
        if truthy src then lit "![" ++ alt ++ lit "](" ++ src ++ lit ")" else []
    | None => []
    end
  else if tagName === lit "ul" then nl ++ processListItems_ element (Some (lit "- ")) false ++ nl
  else if tagName === lit "ol" then nl ++ processListItems_ element None true ++ nl
  else if tagName === lit "li" then this_processElement element
  else if tagName === lit "table" then processTable_ element
  else if tagName === lit "div" || tagName === lit "span"
          || tagName === lit "section" || tagName === lit "article"
  then this_processElement element
  else this_processElement element.

(** The body of [processElement]'s loop: what one child node adds. *)
Definition appendNode (result : jsstring) (node : node) : jsstring :=
  match node with
  | Text _ =>
      let text := trim (textContent node) in
      if truthy text then result ++ text ++ lit " " else result
  | Element _ _ _ => result ++ convertElementToMarkdown_ node
  | Comment _ => result
  end.
End Methods.

(** [processElement] recurses into the tree through
    [convertElementToMarkdown]; [fuel] bounds the nesting it may enter. *)
Fixpoint processElementFuel (fuel : nat) (element : node) : jsstring :=
  match fuel with
  | 0 => []
  | S fuel' => fold_left (appendNode (processElementFuel fuel')) (childNodes element) []
  end.

(** The height of the element is all the fuel a call needs
    ([processElement_unfold] below). *)
Definition processElement (element : node) : jsstring :=
  processElementFuel (height element) element.

Definition convertElementToMarkdown : node -> jsstring :=
  convertElementToMarkdown_ processElement.

Definition processListItems : node -> option jsstring -> bool -> jsstring :=
  processListItems_ processElement.

Definition processTable : node -> jsstring := processTable_ processElement.


(** *** The orchestrator *)

(** The notice returned when the range is not found. *)
Definition warning : jsstring :=
  [9888; 65039; 32; 35686; 21578; 58; 32; 34; 23455; 34892; 26178; 38291; 21046;
   38480; 58; 34; 32; 12363; 12425; 32; 34; 80; 114; 111; 98; 108; 101; 109; 32;
   83; 116; 97; 116; 101; 109; 101; 110; 116; 34; 32; 12414; 12391; 12398; 37096;
   20998; 12364; 35211; 12388; 12363; 12426; 12414; 12379; 12435; 12391; 12375;
   12383; 12290; 10; 10; 72; 84; 77; 76; 12501; 12449; 12452; 12523; 12398; 27083;
   36896; 12434; 30906; 35469; 12375; 12390; 12367; 12384; 12373; 12356; 12290]%N.

Definition parseFailure : jsstring :=
  lit "HTML" ++ [35299; 26512; 12395; 22833; 25943; 12375; 12414; 12375; 12383]%N.

(** What [convertHtmlToMarkdown] does with [extractedContent]. *)
Definition convertExtracted (extractedContent : option node) : completion :=
  match extractedContent with
  | None => Return warning
  | Some extractedContent => Return (trim (processElement extractedContent))
  end.

Section Convert.
(** [new DOMParser().parseFromString(html, 'text/html')]; [None] when the
    parser throws. *)
Variable parseFromString : jsstring -> option document.

Definition convertHtmlToMarkdown (html : jsstring) : fuelled completion :=
  match parseFromString html with
  | None => Ran (Throw parseFailure)
  | Some doc =>
      let doc := removeUnwantedElements doc in
      match extractSpecificSection doc with
      | Ran extractedContent => Ran (convertExtracted extractedContent)
      | OutOfFuel => OutOfFuel
      end
  end.
End Convert.

(** [convertHtmlToMarkdown] with everything its [catch] block catches.  The
    [try] block holds the call [this.processElement(extractedContent)] too,
    and that call enters one more pair of calls for each level of the tree it
    renders: on an engine whose call stack the tree exhausts it ends in a
    [RangeError], which the [catch] block replaces by the fixed [Error] like
    a failure of the parser.  [processElementThrows] tells for which trees
    the call ends in an exception; [convertHtmlToMarkdown] above is this
    function where it never does ([scoped_catching_returning]
    below).  When the range is not found the emitter is not called. *)
Section ConvertCatching.
Variable parseFromString : jsstring -> option document.
Variable processElementThrows : node -> bool.

Definition convertExtractedCatching (extractedContent : option node) : completion :=
  match extractedContent with
  | None => Return warning
  | Some extractedContent =>
      if processElementThrows extractedContent then Throw parseFailure
      else Return (trim (processElement extractedContent))
  end.

Definition convertHtmlToMarkdownCatching (html : jsstring) : fuelled completion :=
  match parseFromString html with
  | None => Ran (Throw parseFailure)
  | Some doc =>
      let doc := removeUnwantedElements doc in
      match extractSpecificSection doc with
      | Ran extractedContent => Ran (convertExtractedCatching extractedContent)
      | OutOfFuel => OutOfFuel
      end
  end.
End ConvertCatching.

End Part001.

(** ** [js/converter.js] on a document that can change

    The same emitter once more, this time as the methods run: on handles into
    the one document of the page, which every DOM call receives and hands
    on.  Reading calls hand it on as it is; [el.remove()] of the sanitizer
    does not. *)
Module ConverterJsState.
Import JsString Dom.

(** A computation on the document: its result and the document after it. *)
Definition DomM (A : Type) : Type := document -> A * document.

Definition ret (A : Type) (a : A) : DomM A := fun dom => (a, dom).

Definition bind (A B : Type) (m : DomM A) (k : A -> DomM B) : DomM B :=
  fun dom => let (a, dom') := m dom in k a dom'.

Notation "x <- m ;; k" := (bind m (fun x => k))
  (at level 61, m at next level, right associativity).

(** A getter of the DOM. *)
Definition read (A : Type) (f : document -> A) : DomM A := fun dom => (f dom, dom).

Inductive nodeType : Type := TEXT_NODE | ELEMENT_NODE | OTHER_NODE.

Definition get_childNodes (h : handle) : DomM (list handle) :=
  read (fun dom => map (fun index => index :: h)
                     (seq 0 (List.length (childNodesAt dom h)))).

Definition get_nodeType (h : handle) : DomM nodeType :=
  read (fun dom => match nodeAt dom h with
                   | Some (Text _) => TEXT_NODE
                   | Some (Element _ _ _) => ELEMENT_NODE
                   | _ => OTHER_NODE
                   end).

Definition get_textContent (h : handle) : DomM jsstring :=
  read (fun dom => match nodeAt dom h with
                   | Some n => textContent n
                   | None => []
                   end).

(** [element.tagName.toLowerCase()]. *)
Definition get_tagNameLower (h : handle) : DomM jsstring :=
  read (fun dom => match nodeAt dom h with
                   | Some n => tagNameLower n
                   | None => []
                   end).

Definition get_children (h : handle) : DomM (list handle) :=
  read (fun dom => map (fun index => index :: h)
                     (filter (fun index => match nth_error (childNodesAt dom h) index with
                                           | Some n => isElement n
                                           | None => false
                                           end)
                        (seq 0 (List.length (childNodesAt dom h))))).

Definition call_getAttribute (h : handle) (name : jsstring) : DomM (option jsstring) :=
  read (fun dom => match nodeAt dom h with
                   | Some n => getAttribute n name
                   | None => None
                   end).

Definition call_querySelectorAll (h : handle) (sel : selector) : DomM (list handle) :=
  read (fun dom => match nodeAt dom h with
                   | Some n => map position
                                 (filter (fun r => matches sel (target r))
                                    (descendantRefs h n))
                   | None => []
                   end).

Definition call_querySelector (h : handle) (sel : selector) : DomM (option handle) :=
  read (fun dom => match nodeAt dom h with
                   | Some n => option_map position
                                 (find (fun r => matches sel (target r))
                                    (descendantRefs h n))
                   | None => None
                   end).

(** [el.remove()], the one call of the program that changes the document;
    [path] runs from the document down to the parent. *)
Fixpoint removeNth (A : Type) (index : nat) (l : list A) : list A :=
  match l, index with
  | [], _ => []
  | _ :: l', 0 => l'
  | x :: l', S index' => x :: removeNth index' l'
  end.

Fixpoint updateNth (A : Type) (index : nat) (f : A -> A) (l : list A) : list A :=
  match l, index with
  | [], _ => []
  | x :: l', 0 => f x :: l'
  | x :: l', S index' => x :: updateNth index' f l'
  end.

Fixpoint updateChildNodes (path : list nat) (f : list node -> list node)
    (kids : list node) : list node :=
  match path with
  | [] => f kids
  | index :: path' =>
      updateNth index
        (fun n => match n with
                  | Element tag attrs kids' =>
                      Element tag attrs (updateChildNodes path' f kids')
                  | _ => n
                  end)
        kids
  end.

Definition call_remove (h : handle) : DomM unit :=
  fun dom =>
    match h with
    | [] => (tt, dom)
    | index :: parent =>
        (tt, Document (updateChildNodes (rev parent) (removeNth index)
                         (documentChildNodes dom)))
    end.

(** [for (const x of xs)], [xs.map], [xs.filter] and [xs.forEach] with a
    callback that calls into the DOM. *)
Fixpoint forOf (A R : Type) (f : R -> A -> DomM R) (l : list A) (acc : R) : DomM R :=
  match l with
  | [] => ret acc
  | x :: l' => acc' <- f acc x ;; forOf f l' acc'
  end.

Fixpoint mapiFromM (A B : Type) (f : A -> nat -> DomM B) (index : nat) (l : list A)
    : DomM (list B) :=
  match l with
  | [] => ret []
  | x :: l' => y <- f x index ;; ys <- mapiFromM f (S index) l' ;; ret (y :: ys)
  end.

Definition mapiM (A B : Type) (f : A -> nat -> DomM B) (l : list A) : DomM (list B) :=
  mapiFromM f 0 l.

Fixpoint filterM (A : Type) (p : A -> DomM bool) (l : list A) : DomM (list A) :=
  match l with
  | [] => ret []
  | x :: l' =>
      keep <- p x ;; rest <- filterM p l' ;; ret (if keep then x :: rest else rest)
  end.

Fixpoint forEachiFromM (A R : Type) (f : R -> A -> nat -> DomM R) (index : nat)
    (l : list A) (acc : R) : DomM R :=
  match l with
  | [] => ret acc
  | x :: l' => acc' <- f acc x index ;; forEachiFromM f (S index) l' acc'
  end.

Definition forEachiM (A R : Type) (f : R -> A -> nat -> DomM R) (l : list A) (acc : R)
    : DomM R :=
  forEachiFromM f 0 l acc.

Definition templateOf (prefix : option jsstring) : jsstring :=
  match prefix with
  | Some s => s
  | None => lit "null"
  end.

Section Methods.
Variable this_processElement : handle -> DomM jsstring.

Definition processListItems_ (listElement : handle) (prefix : option jsstring)
    (isOrdered : bool) : DomM jsstring :=
  kids <- get_children listElement ;;
  items <- filterM (fun child => tagName <- get_tagNameLower child ;;
                                 ret (tagName === lit "li")) kids ;;
  lines <- mapiM (fun item index =>
                    let itemPrefix := if isOrdered
                                      then numberToString (index + 1) ++ lit ". "
                                      else templateOf prefix in
                    rendered <- this_processElement item ;;
                    ret (itemPrefix ++ trim rendered))
             items ;;
  ret (join nl lines).

Definition processTable_ (table : handle) : DomM jsstring :=
  rows <- call_querySelectorAll table (Tags [lit "tr"]) ;;
  if List.length rows =? 0 then ret []
  else
    result <-
      forEachiM (fun result row rowIndex =>
                   cells <- call_querySelectorAll row (Tags [lit "td"; lit "th"]) ;;
                   cellContents <-
                     mapiM (fun cell _ =>
                              rendered <- this_processElement cell ;;
                              ret (replaceNewlines (trim rendered)))
                       cells ;;
                   let result :=
                     result ++ lit "| " ++ join (lit " | ") cellContents ++ lit " |" ++ nl in
                   if rowIndex =? 0
                   then
                     th <- call_querySelector row (Tags [lit "th"]) ;;
                     match th with
                     | Some _ =>
                         ret (result ++ lit "| "
                                ++ join (lit " | ") (map (fun _ => lit "---") cells)
                                ++ lit " |" ++ nl)
                     | None => ret result
                     end
                   else ret result)
        rows nl ;;
    ret (result ++ nl).

Definition convertElementToMarkdown_ (element : handle) : DomM jsstring :=
  tagName <- get_tagNameLower element ;;
  textContent <- get_textContent element ;;
  let text := trim textContent in
  if negb (truthy text) && negb (tagIn [lit "br"; lit "hr"; lit "img"] tagName)
  then ret []
  else if tagName === lit "h1" then ret (nl ++ lit "# " ++ text ++ nl ++ nl)
  else if tagName === lit "h2" then ret (nl ++ lit "## " ++ text ++ nl ++ nl)
  else if tagName === lit "h3" then ret (nl ++ lit "### " ++ text ++ nl ++ nl)
  else if tagName === lit "h4" then ret (nl ++ lit "#### " ++ text ++ nl ++ nl)
  else if tagName === lit "h5" then ret (nl ++ lit "##### " ++ text ++ nl ++ nl)
  else if tagName === lit "h6" then ret (nl ++ lit "###### " ++ text ++ nl ++ nl)
  else if tagName === lit "p" then
    inner <- this_processElement element ;; ret (nl ++ inner ++ nl ++ nl)
  else if tagName === lit "br" then ret nl
  else if tagName === lit "hr" then ret (nl ++ lit "---" ++ nl ++ nl)
  else if tagName === lit "strong" || tagName === lit "b"
  then ret (lit "**" ++ text ++ lit "**")
  else if tagName === lit "em" || tagName === lit "i"
  then ret (lit "*" ++ text ++ lit "*")
  else if tagName === lit "code" then ret (lit "`" ++ text ++ lit "`")
  else if tagName === lit "var" then ret (lit "$" ++ text ++ lit "$")
  else if tagName === lit "pre" then
    codeElement <- call_querySelector element (Tags [lit "code"]) ;;
    codeText <- match codeElement with
                | Some code => get_textContent code
                | None => ret text
                end ;;
    ret (nl ++ lit "```" ++ nl ++ codeText ++ nl ++ lit "```" ++ nl ++ nl)
  else if tagName === lit "blockquote" then
    inner <- this_processElement element ;; ret (nl ++ lit "> " ++ inner ++ nl ++ nl)
  else if tagName === lit "a" then
    href <- call_getAttribute element (lit "href") ;;
    match href with
    | Some href =>
        ret (if truthy href then lit "[" ++ text ++ lit "](" ++ href ++ lit ")" else text)
    | None => ret text
    end
  else if tagName === lit "img" then
    src <- call_getAttribute element (lit "src") ;;
    alt <- call_getAttribute element (lit "alt") ;;
    let alt := match alt with
               | Some alt => alt
               | None => []
               end in
    match src with
    | Some src =>
        ret (if truthy src then lit "![" ++ alt ++ lit "](" ++ src ++ lit ")" else [])
    | None => ret []
    end
  else if tagName === lit "ul" then
    items <- processListItems_ element (Some (lit "- ")) false ;;
    ret (nl ++ items ++ nl)
  else if tagName === lit "ol" then
    items <- processListItems_ element None true ;;
    ret (nl ++ items ++ nl)
  else if tagName === lit "li" then this_processElement element
  else if tagName === lit "table" then processTable_ element
  else if tagName === lit "div" || tagName === lit "span"
          || tagName === lit "section" || tagName === lit "article"
  then this_processElement element
  else this_processElement element.

Definition appendNode (result : jsstring) (node : handle) : DomM jsstring :=
  type <- get_nodeType node ;;
  match type with
  | TEXT_NODE =>
      textContent <- get_textContent node ;;
      let text := trim textContent in
      ret (if truthy text then result ++ text ++ lit " " else result)
  | ELEMENT_NODE =>
      rendered <- convertElementToMarkdown_ node ;;
      ret (result ++ rendered)
  | OTHER_NODE => ret result
  end.
End Methods.

Fixpoint processElementFuel (fuel : nat) (element : handle) : DomM jsstring :=
  match fuel with
  | 0 => ret []
  | S fuel' =>
      kids <- get_childNodes element ;;
      forOf (appendNode (processElementFuel fuel')) kids []
  end.

(** The fuel of a call: the height of the node it is made on. *)
Definition fuelAt (dom : document) (element : handle) : nat :=
  match nodeAt dom element with
  | Some n => height n
  | None => 0
  end.

Definition processElement (element : handle) : DomM jsstring :=
  fun dom => processElementFuel (fuelAt dom element) element dom.

Definition convertElementToMarkdown : handle -> DomM jsstring :=
  convertElementToMarkdown_ processElement.

Definition processListItems : handle -> option jsstring -> bool -> DomM jsstring :=
  processListItems_ processElement.

Definition processTable : handle -> DomM jsstring := processTable_ processElement.

(** A computation that hands the document on as it received it. *)
Definition preserves (A : Type) (m : DomM A) : Prop :=
  forall dom, snd (m dom) = dom.

(** A computation that, run on [dom], returns [a] and hands [dom] on. *)
Definition returns (A : Type) (dom : document) (m : DomM A) (a : A) : Prop :=
  m dom = (a, dom).

End ConverterJsState.

(** ** The page around the converter

    The methods of the class that drive the page, the same in both scripts.
    The page is the state they share: the class lists, texts and styles of
    the elements [initializeElements] looks up, and the callbacks handed to
    [setTimeout] that have not run yet.  An [async] method runs up to its
    [await] and is resumed later with the outcome of what it awaited; other
    handlers may run in between, so the two parts are separate steps. *)
Module Ui.
Import JsString Dom.

Record page : Type := Page {
  dropZone_classList : list jsstring;
  output_textContent : jsstring;
  outputSection_classList : list jsstring;
  status_textContent : jsstring;
  status_classList : list jsstring;
  loading_display : jsstring;
  (** the callbacks [() => this.hideStatus()] waiting in [setTimeout] *)
  pendingTimers : nat
}.

(** A [File]: its name and its MIME type. *)
Record file : Type := File { name : jsstring; type : jsstring }.

(** [classList.add(token)] and [classList.remove(token)]. *)
Definition classList_add (token : jsstring) (classes : list jsstring) : list jsstring :=
  if existsb (eqb token) classes then classes else classes ++ [token].

Definition classList_remove (token : jsstring) (classes : list jsstring)
    : list jsstring :=
  filter (fun class => negb (class === token)) classes.

(** The second argument of [showStatus]: ['success'] or ['error']. *)
Inductive statusType : Type := success | error.

Definition statusTypeName (t : statusType) : jsstring :=
  match t with
  | success => lit "success"
  | error => lit "error"
  end.

Definition showLoading (show : bool) (p : page) : page :=
  Page (dropZone_classList p) (output_textContent p) (outputSection_classList p)
    (status_textContent p) (status_classList p)
    (if show then lit "block" else lit "none") (pendingTimers p).

Definition hideStatus (p : page) : page :=
  Page (dropZone_classList p) (output_textContent p) (outputSection_classList p)
    (status_textContent p) (classList_remove (lit "show") (status_classList p))
    (loading_display p) (pendingTimers p).

(** [showStatus]: the text, the class name [`status ${type} show`], and one
    more callback in [setTimeout]. *)
Definition showStatus (message : jsstring) (t : statusType) (p : page) : page :=
  Page (dropZone_classList p) (output_textContent p) (outputSection_classList p)
    message [lit "status"; statusTypeName t; lit "show"]
    (loading_display p) (S (pendingTimers p)).

(** One of the waiting callbacks runs. *)
Definition timerFires (p : page) : page :=
  match pendingTimers p with
  | 0 => p
  | S waiting =>
      hideStatus
        (Page (dropZone_classList p) (output_textContent p)
           (outputSection_classList p) (status_textContent p) (status_classList p)
           (loading_display p) waiting)
  end.

Definition handleDragOver (p : page) : page :=
  Page (classList_add (lit "drag-over") (dropZone_classList p))
    (output_textContent p) (outputSection_classList p) (status_textContent p)
    (status_classList p) (loading_display p) (pendingTimers p).

Definition handleDragLeave (p : page) : page :=
  Page (classList_remove (lit "drag-over") (dropZone_classList p))
    (output_textContent p) (outputSection_classList p) (status_textContent p)
    (status_classList p) (loading_display p) (pendingTimers p).

(** The messages of the status line, as code units. *)
Definition conversionDone : jsstring :=
  [9989; 32; 22793; 25563; 23436; 20102; 58; 32]%N.

Definition conversionFailed : jsstring :=
  [22793; 25563; 20013; 12395; 12456; 12521; 12540; 12364; 30330; 29983; 12375;
   12414; 12375; 12383]%N.

Definition selectHtmlFile : jsstring :=
  lit "HTML"
  ++ [12501; 12449; 12452; 12523; 12434; 36984; 25246; 12375; 12390; 12367; 12384;
      12373; 12356]%N.

Definition copied : jsstring :=
  [55357; 56523; 32; 12463; 12522; 12483; 12503; 12508; 12540; 12489; 12395; 12467;
   12500; 12540; 12375; 12414; 12375; 12383]%N.

Definition copyFailed : jsstring :=
  [12467; 12500; 12540; 12395; 22833; 25943; 12375; 12414; 12375; 12383]%N.

(** [s.endsWith(suffix)]. *)
Definition endsWith (s suffix : jsstring) : bool := startsWith (rev s) (rev suffix).

Section Handlers.
(** [this.convertHtmlToMarkdown] of the script at hand. *)
Variable convertHtmlToMarkdown : jsstring -> fuelled completion.

(** [String.prototype.toLowerCase]. *)
Variable toLowerCase : jsstring -> jsstring.

(** [processFile] up to [await file.text()]. *)
Definition processFile_begin (p : page) : page := hideStatus (showLoading true p).

(** [processFile] from there on; [text] is how [file.text()] ended, [None]
    when it was rejected. *)
Definition processFile_resume (f : file) (text : option jsstring) (p : page)
    : fuelled page :=
  let caught := showLoading false (showStatus conversionFailed error p) in
  match text with
  | None => Ran caught
  | Some html =>
      match convertHtmlToMarkdown html with
      | OutOfFuel => OutOfFuel
      | Ran (Throw _) => Ran caught
      | Ran (Return markdown) =>
          let p :=
            Page (dropZone_classList p) markdown
              (classList_add (lit "show") (outputSection_classList p))
              (status_textContent p) (status_classList p) (loading_display p)
              (pendingTimers p) in
          Ran (showLoading false (showStatus (conversionDone ++ name f) success p))
      end
  end.

(** [handleFileSelect] up to its [await]: the file it goes on with, if any. *)
Definition handleFileSelect_begin (files : list file) (p : page) : page * option file :=
  match files with
  | f :: _ => (processFile_begin p, Some f)
  | [] => (p, None)
  end.

(** The test of [files.find] in [handleDrop]. *)
Definition isHtmlFile (f : file) : bool :=
  (type f === lit "text/html")
  || endsWith (toLowerCase (name f)) (lit ".html")
  || endsWith (toLowerCase (name f)) (lit ".htm").

(** [handleDrop] up to its [await]. *)
Definition handleDrop_begin (files : list file) (p : page) : page * option file :=
  let p := handleDragLeave p in
  match find isHtmlFile files with
  | Some htmlFile => (processFile_begin p, Some htmlFile)
  | None => (showStatus selectHtmlFile error p, None)
  end.

(** [copyToClipboard]: the text handed to [navigator.clipboard.writeText],
    and the rest of the method once that has ended, well or not. *)
Definition copyToClipboard_begin (p : page) : jsstring := output_textContent p.

Definition copyToClipboard_resume (written : bool) (p : page) : page :=
  if written then showStatus copied success p else showStatus copyFailed error p.
End Handlers.

End Ui.

(** ** The rendering rules in the specification's words

    What the specification says a sanitized tree, a list and a table look
    like, to compare the methods against. *)
Module Spec.
Import JsString Dom.

(** No element below [n] matches [sel]. *)
Fixpoint noMatchBelow (sel : selector) (n : node) : bool :=
  match n with
  | Element _ _ kids =>
      forallb (fun kid => negb (matches sel kid) && noMatchBelow sel kid) kids
  | _ => true
  end.

(** No element of the document matches [sel], at any depth. *)
Definition noMatchIn (sel : selector) (doc : document) : bool :=
  forallb (fun kid => negb (matches sel kid) && noMatchBelow sel kid)
    (documentChildNodes doc).

(** [a] is a proper ancestor of [d]: the place of [d] continues the place of
    [a] by at least one level. *)
Definition properAncestor (a d : handle) : Prop :=
  exists deeper, deeper <> [] /\ d = deeper ++ a.

(** Parents come before children: no element of the list is [later] than one
    of its own descendants, nor listed twice. *)
Definition parentsFirst (elements : list elementRef) : Prop :=
  ForallOrdPairs
    (fun earlier later => forall deeper, position earlier <> deeper ++ position later)
    elements.

(** The two ways a range is not found: no element has the start marker in
    its text; or the start element is found and no element after it in
    [querySelectorAll('*')] has one of the end markers. *)
Definition startAbsent (doc : document) : Prop :=
  forall e, In e (allElements doc) -> Part001.hasStartMarker e = false.

Definition endAbsent (doc : document) : Prop :=
  exists startElement before after,
    Part001.findStart (allElements doc) = Some startElement
    /\ allElements doc = before ++ startElement :: after
    /\ forall e, In e after -> Part001.hasEndMarker e = false.

Section Rendering.
(** The emitter applied to the child nodes of a node. *)
Variable recurse : node -> jsstring.




(** Table rendering: a row for each [tr] at any depth; after the first
    one, a separator of one [---] for each of its cells when it has a [th]
    cell. *)
Definition cells (row : node) : list node :=
  querySelectorAll row (Tags [lit "td"; lit "th"]).

Definition tableRow (row : node) : jsstring :=
  lit "| "
  ++ join (lit " | ") (map (fun cell => replaceNewlines (trim (recurse cell))) (cells row))
  ++ lit " |" ++ nl.

Definition separatorRow (row : node) : jsstring :=
  lit "| " ++ join (lit " | ") (repeat (lit "---") (List.length (cells row)))
  ++ lit " |" ++ nl.

Definition hasHeaderCell (row : node) : bool :=
  existsb (matches (Tags [lit "th"])) (descendants row).

Definition tableMarkdown (table : node) : jsstring :=
  match querySelectorAll table (Tags [lit "tr"]) with
  | [] => []
  | first :: rest =>
      nl ++ tableRow first
      ++ (if hasHeaderCell first then separatorRow first else [])
      ++ List.concat (map tableRow rest) ++ nl
  end.
End Rendering.

End Spec.

(** ** Sample documents *)
Module Examples.
Import JsString Dom.

(** The tree of [<div><p>MARKER</p></div>]: the marker lies four levels
    deep, inside [html], [body], [div] and [p]. *)
Definition nested : document :=
  Document
    [Element (lit "html") []
       [Element (lit "head") [] [];
        Element (lit "body") []
          [Element (lit "div") []
             [Element (lit "p") [] [Text Part001.startMarker]]]]].

(** The tree of a page whose only text is the notice of the converter
    itself, which quotes both markers. *)
Definition noticePage : document :=
  Document
    [Element (lit "html") []
       [Element (lit "head") [] [];
        Element (lit "body") [] [Text Part001.warning]]].

(** The tree of a page with a script and a style sheet in its head and a
    script between two paragraphs. *)
Definition scripted : document :=
  Document
    [Element (lit "html") []
       [Element (lit "head") []
          [Element (lit "script") [] [Text (lit "var x = 1;")];
           Element (lit "style") [] [Text (lit "p { color: red }")]];
        Element (lit "body") []
          [Element (lit "p") [] [Text (lit "one")];
           Element (lit "script") [] [Text (lit "alert(2)")];
           Element (lit "p") [] [Text (lit "two")]]]].




(** A list with a first item, an empty second one and a third one that holds
    nothing but an image. *)
Definition sparseList : node :=
  Element (lit "ul") []
    [Element (lit "li") [] [Text (lit "a")];
     Element (lit "li") [] [];
     Element (lit "li") [] [Element (lit "img") [(lit "src", lit "x.png")] []]].

End Examples.

(** * Properties *)

Unset Implicit Arguments.

(** ** Strings *)
Module JsStringFacts.
Import JsString.

Lemma eqb_eq (a b : jsstring) : a === b = true <-> a = b.
Proof.
  revert b; induction a as [|x a IH]; intros [|y b]; simpl; split;
    try congruence; try reflexivity.
  - intros H. apply andb_prop in H as [Hx Hab].
    apply N.eqb_eq in Hx. apply IH in Hab. congruence.
  - intros H. injection H as -> ->.
    rewrite N.eqb_refl. simpl. apply IH. reflexivity.
Qed.

Lemma eqb_refl (a : jsstring) : a === a = true.
Proof. apply eqb_eq. reflexivity. Qed.

Lemma eqb_neq (a b : jsstring) : a === b = false <-> a <> b.
Proof.
  split.
  - intros H E. apply eqb_eq in E. congruence.
  - intros H. destruct (a === b) eqn:E; [|reflexivity].
    apply eqb_eq in E. contradiction.
Qed.

Lemma truthy_false (s : jsstring) : truthy s = false <-> s = [].
Proof. destruct s; simpl; split; congruence. Qed.

Lemma trimStart_nil (s : jsstring) :
  trimStart s = [] <-> forallb isWhiteSpace s = true.
Proof.
  induction s as [|c s IH]; simpl; [tauto|].
  destruct (isWhiteSpace c); simpl; [exact IH|].
  split; discriminate.
Qed.

Lemma forallb_rev (A : Type) (p : A -> bool) (l : list A) :
  forallb p (rev l) = forallb p l.
Proof.
  induction l as [|x l IH]; simpl; [reflexivity|].
  rewrite forallb_app, IH. simpl. rewrite andb_true_r. apply andb_comm.
Qed.

Lemma trimStart_blank (s : jsstring) :
  forallb isWhiteSpace s = true -> forallb isWhiteSpace (trimStart s) = true.
Proof. intros H. apply trimStart_nil in H. rewrite H. reflexivity. Qed.

(** [trim] leaves nothing exactly of the strings made of white space. *)
Lemma trim_nil (s : jsstring) : trim s = [] <-> forallb isWhiteSpace s = true.
Proof.
  unfold trim, trimEnd. split.
  - intros H. apply trimStart_nil in H. rewrite forallb_rev in H.
    destruct (forallb isWhiteSpace s) eqn:E; [reflexivity|].
    assert (Hr : forallb isWhiteSpace (rev s) = false) by (rewrite forallb_rev; exact E).
    clear E. revert H Hr. generalize (rev s) as r.
    induction r as [|c r IH]; simpl; [congruence|].
    destruct (isWhiteSpace c) eqn:Ec; simpl.
    + exact IH.
    + rewrite Ec. discriminate.
  - intros H. rewrite <- forallb_rev in H. apply trimStart_nil in H.
    rewrite H. reflexivity.
Qed.


Lemma mapiFrom_ext_in (A B : Type) (f g : A -> nat -> B) (l : list A) :
  (forall x index, In x l -> f x index = g x index) ->
  forall index, mapiFrom f index l = mapiFrom g index l.
Proof.
  induction l as [|x l IH]; intros H index; simpl; [reflexivity|].
  rewrite H by (left; reflexivity). f_equal. apply IH.
  intros y j Hy. apply H. right. exact Hy.
Qed.



Lemma forEachiFrom_ext_in (A R : Type) (f g : R -> A -> nat -> R) (l : list A) :
  (forall acc x index, In x l -> f acc x index = g acc x index) ->
  forall index acc, forEachiFrom f index l acc = forEachiFrom g index l acc.
Proof.
  induction l as [|x l IH]; intros H index acc; simpl; [reflexivity|].
  rewrite H by (left; reflexivity). apply IH.
  intros a y j Hy. apply H. right. exact Hy.
Qed.

End JsStringFacts.

(** ** The document tree *)
Module DomFacts.
Import JsString Dom JsStringFacts.

(** Induction on a node with the hypothesis for all its child nodes. *)
Lemma node_nested_ind (P : node -> Prop) :
  (forall data, P (Text data)) ->
  (forall data, P (Comment data)) ->
  (forall tag attrs kids, Forall P kids -> P (Element tag attrs kids)) ->
  forall n, P n.
Proof.
  intros HT HC HE. fix self 1. intros [data|data|tag attrs kids].
  - apply HT.
  - apply HC.
  - apply HE. induction kids as [|kid kids IH]; constructor.
    + apply self.
    + exact IH.
Qed.

Lemma height_child (n kid : node) :
  In kid (childNodes n) -> height kid < height n.
Proof.
  destruct n as [d|d|tag attrs kids]; simpl; try contradiction.
  induction kids as [|k kids IH]; simpl; [contradiction|].
  intros [->|H]; [lia|]. specialize (IH H). lia.
Qed.

Lemma in_children (n kid : node) : In kid (children n) -> In kid (childNodes n).
Proof. unfold children. intros H. apply filter_In in H. tauto. Qed.

Lemma height_descendant (n d : node) : In d (descendants n) -> height d < height n.
Proof.
  revert d. induction n as [data|data|tag attrs kids IH] using node_nested_ind;
    intros d; simpl; try contradiction.
  intros H. apply in_flat_map in H as [kid [Hkid Hd]].
  assert (Hlt : height kid < height (Element tag attrs kids))
    by (apply height_child; exact Hkid).
  simpl in Hlt. rewrite Forall_forall in IH.
  destruct (isElement kid); [|contradiction].
  destruct Hd as [<-|Hd]; [exact Hlt|].
  specialize (IH kid Hkid d Hd). lia.
Qed.

Lemma in_descendants_element (n d : node) :
  In d (descendants n) -> exists tag attrs kids, d = Element tag attrs kids.
Proof.
  revert d. induction n as [data|data|tag attrs kids IH] using node_nested_ind;
    intros d; simpl; try contradiction.
  intros H. apply in_flat_map in H as [kid [Hkid Hd]].
  rewrite Forall_forall in IH.
  destruct kid as [x|x|t a k]; simpl in Hd; try contradiction.
  destruct Hd as [<-|Hd]; [eauto|]. apply (IH _ Hkid). exact Hd.
Qed.

Lemma height_querySelectorAll (n d : node) (sel : selector) :
  In d (querySelectorAll n sel) -> height d < height n.
Proof.
  unfold querySelectorAll. intros H. apply filter_In in H as [H _].
  apply height_descendant. exact H.
Qed.

Lemma cloneNode_id (n : node) : cloneNode n = n.
Proof.
  induction n as [data|data|tag attrs kids IH] using node_nested_ind;
    simpl; try reflexivity.
  f_equal. induction IH as [|kid kids Hkid _ IHkids]; simpl; [reflexivity|].
  rewrite Hkid, IHkids. reflexivity.
Qed.

End DomFacts.

(** ** The emitter of [js/converter.js] *)
Module EmitterFacts.
Import JsString Dom JsStringFacts DomFacts ConverterJs.

(** The methods look at [this.processElement] only on the element they are
    given and on elements below it. *)
Lemma processListItems_ext (pe1 pe2 : node -> jsstring) (n : node)
    (prefix : option jsstring) (isOrdered : bool) :
  (forall m, height m < height n -> pe1 m = pe2 m) ->
  processListItems_ pe1 n prefix isOrdered = processListItems_ pe2 n prefix isOrdered.
Proof.
  intros H. unfold processListItems_, mapi. f_equal.
  apply mapiFrom_ext_in. intros item index Hitem.
  apply filter_In in Hitem as [Hitem _].
  rewrite H; [reflexivity|]. apply height_child, in_children, Hitem.
Qed.

Lemma processTable_ext (pe1 pe2 : node -> jsstring) (n : node) :
  (forall m, height m < height n -> pe1 m = pe2 m) ->
  processTable_ pe1 n = processTable_ pe2 n.
Proof.
  intros H. unfold processTable_, forEachi.
  destruct (List.length (querySelectorAll n (Tags [lit "tr"])) =? 0); [reflexivity|].
  f_equal. apply forEachiFrom_ext_in. intros acc row index Hrow.
  apply height_querySelectorAll in Hrow.
  assert (E : map (fun cell => replaceNewlines (trim (pe1 cell)))
                (querySelectorAll row (Tags [lit "td"; lit "th"]))
              = map (fun cell => replaceNewlines (trim (pe2 cell)))
                  (querySelectorAll row (Tags [lit "td"; lit "th"]))).
  { apply map_ext_in. intros cell Hcell. apply height_querySelectorAll in Hcell.
    rewrite H; [reflexivity | lia]. }
  rewrite E. reflexivity.
Qed.

Lemma convertElementToMarkdown_ext (pe1 pe2 : node -> jsstring) (n : node) :
  (forall m, height m <= height n -> pe1 m = pe2 m) ->
  convertElementToMarkdown_ pe1 n = convertElementToMarkdown_ pe2 n.
Proof.
  intros H. unfold convertElementToMarkdown_.
  assert (Hlt : forall m, height m < height n -> pe1 m = pe2 m)
    by (intros m Hm; apply H; lia).
  rewrite (H n (Nat.le_refl _)).
  rewrite (processListItems_ext pe1 pe2 n (Some (lit "- ")) false Hlt).
  rewrite (processListItems_ext pe1 pe2 n None true Hlt).
  rewrite (processTable_ext pe1 pe2 n Hlt).
  reflexivity.
Qed.

Lemma appendNode_ext (pe1 pe2 : node -> jsstring) (result : jsstring) (n : node) :
  (forall m, height m <= height n -> pe1 m = pe2 m) ->
  appendNode pe1 result n = appendNode pe2 result n.
Proof.
  intros H. destruct n as [d|d|tag attrs kids]; try reflexivity.
  unfold appendNode. rewrite (convertElementToMarkdown_ext pe1 pe2 _ H). reflexivity.
Qed.

Lemma fold_appendNode_ext (pe1 pe2 : node -> jsstring) (kids : list node) :
  (forall kid m, In kid kids -> height m <= height kid -> pe1 m = pe2 m) ->
  forall result,
    fold_left (appendNode pe1) kids result = fold_left (appendNode pe2) kids result.
Proof.
  induction kids as [|kid kids IH]; intros H result; simpl; [reflexivity|].
  rewrite (appendNode_ext pe1 pe2 result kid) by (intros m; apply H; left; reflexivity).
  apply IH. intros k m Hk. apply H. right. exact Hk.
Qed.

(** Fuel beyond the height of the node changes nothing. *)
Lemma processElementFuel_stable (fuel1 fuel2 : nat) (n : node) :
  height n <= fuel1 -> height n <= fuel2 ->
  processElementFuel fuel1 n = processElementFuel fuel2 n.
Proof.
  revert fuel2 n. induction fuel1 as [|fuel1 IH]; intros fuel2 n H1 H2.
  - assert (Hk : childNodes n = []).
    { destruct n as [d|d|tag attrs kids]; simpl in *; try reflexivity. lia. }
    destruct fuel2; simpl; [reflexivity|]. rewrite Hk. reflexivity.
  - destruct fuel2 as [|fuel2].
    + assert (Hk : childNodes n = []).
      { destruct n as [d|d|tag attrs kids]; simpl in *; try reflexivity. lia. }
      simpl. rewrite Hk. reflexivity.
    + simpl. apply fold_appendNode_ext. intros kid m Hkid Hm.
      apply height_child in Hkid. apply IH; lia.
Qed.

(** [processElement] is the loop of the source over the child nodes, with
    [convertElementToMarkdown] called on the elements among them. *)
Lemma processElement_unfold (element : node) :
  processElement element
  = fold_left (appendNode processElement) (childNodes element) [].
Proof.
  unfold processElement at 1.
  destruct element as [d|d|tag attrs kids]; try reflexivity.
  change (height (Element tag attrs kids))
    with (S (fold_right (fun kid h => Nat.max (height kid) h) 0 kids)).
  cbn [processElementFuel]. apply fold_appendNode_ext.
  intros kid m Hkid Hm. unfold processElement.
  apply (height_child (Element tag attrs kids)) in Hkid. simpl in Hkid.
  apply processElementFuel_stable; lia.
Qed.

(** The loop as a concatenation, one piece for each child node. *)
Lemma fold_appendNode_concat (pe : node -> jsstring) (kids : list node)
    (result : jsstring) :
  fold_left (appendNode pe) kids result
  = result ++ List.concat (map (appendNode pe []) kids).
Proof.
  revert result. induction kids as [|kid kids IH]; intros result; simpl.
  - rewrite app_nil_r. reflexivity.
  - rewrite IH. destruct kid as [d|d|tag attrs ks]; simpl.
    + destruct (truthy (trim d)); simpl; rewrite <- ?app_assoc; reflexivity.
    + reflexivity.
    + rewrite <- app_assoc. reflexivity.
Qed.

Lemma processElement_concat (element : node) :
  processElement element
  = List.concat (map (appendNode processElement []) (childNodes element)).
Proof. rewrite processElement_unfold. apply fold_appendNode_concat. Qed.

End EmitterFacts.

(** ** The claims on the emitter *)
Module EmitterClaims.
Import JsString Dom JsStringFacts DomFacts ConverterJs EmitterFacts.

Lemma map_const_repeat (A B : Type) (b : B) (l : list A) :
  map (fun _ => b) l = repeat b (List.length l).
Proof. induction l as [|x l IH]; simpl; [reflexivity|]. rewrite IH. reflexivity. Qed.

Lemma find_existsb (A : Type) (p : A -> bool) (l : list A) :
  (match find p l with Some _ => true | None => false end) = existsb p l.
Proof.
  induction l as [|x l IH]; simpl; [reflexivity|].
  destruct (p x); simpl; [reflexivity | exact IH].
Qed.

(** After the first row, [forEach] only adds rows. *)
Lemma table_rows_after_first (rows : list node) (index : nat) (result : jsstring) :
  forEachiFrom
    (fun result row rowIndex =>
       let cells := querySelectorAll row (Tags [lit "td"; lit "th"]) in
       let cellContents :=
         map (fun cell => replaceNewlines (trim (processElement cell))) cells in
       let result :=
         result ++ lit "| " ++ join (lit " | ") cellContents ++ lit " |" ++ nl in
       if (rowIndex =? 0)
          && (match querySelector row (Tags [lit "th"]) with
              | Some _ => true
              | None => false
              end)
       then result ++ lit "| "
              ++ join (lit " | ") (map (fun _ => lit "---") cells)
              ++ lit " |" ++ nl
       else result)
    (S index) rows result
  = result ++ List.concat (map (Spec.tableRow processElement) rows).
Proof.
  revert index result. induction rows as [|row rows IH]; intros index result.
  - simpl. rewrite app_nil_r. reflexivity.
  - cbn [forEachiFrom]. rewrite IH. cbn [map List.concat Nat.eqb andb].
    unfold Spec.tableRow, Spec.cells. rewrite <- !app_assoc. reflexivity.
Qed.

Lemma processTable_spec (table : node) :
  processTable table = Spec.tableMarkdown processElement table.
Proof.
  unfold processTable, processTable_, Spec.tableMarkdown, forEachi.
  destruct (querySelectorAll table (Tags [lit "tr"])) as [|first rest];
    [reflexivity|].
  cbn [List.length Nat.eqb forEachiFrom]. rewrite table_rows_after_first.
  cbn [Nat.eqb andb]. unfold querySelector. rewrite find_existsb.
  fold (Spec.hasHeaderCell first).
  unfold Spec.tableRow, Spec.separatorRow, Spec.cells.
  rewrite map_const_repeat.
  destruct (Spec.hasHeaderCell first); rewrite <- ?app_assoc; reflexivity.
Qed.

(** C5: [processTable] renders a table as the specification says: a
    pipe-delimited row for each [tr] found at any depth, in document order;
    right after the first row a separator with one [---] for each of its
    cells exactly when a [th] lies in that row; nothing at all for a table
    without rows. *)
Theorem C5_table_rows_and_separator (table : node) :
  processTable table = Spec.tableMarkdown processElement table
  /\ (querySelectorAll table (Tags [lit "tr"]) = [] -> processTable table = [])
  /\ (forall first rest,
        querySelectorAll table (Tags [lit "tr"]) = first :: rest ->
        ((exists th, In th (descendants first) /\ tagNameLower th = lit "th") ->
         processTable table
         = nl ++ Spec.tableRow processElement first ++ Spec.separatorRow first
           ++ List.concat (map (Spec.tableRow processElement) rest) ++ nl)
        /\ (~ (exists th, In th (descendants first) /\ tagNameLower th = lit "th") ->
            processTable table
            = nl ++ Spec.tableRow processElement first
              ++ List.concat (map (Spec.tableRow processElement) rest) ++ nl)).
Proof.
  split; [apply processTable_spec|]. split.
  - intros H. rewrite processTable_spec. unfold Spec.tableMarkdown.
    rewrite H. reflexivity.
  - intros first rest H. rewrite processTable_spec. unfold Spec.tableMarkdown.
    rewrite H. split.
    + intros [th [Hin Htag]].
      assert (E : Spec.hasHeaderCell first = true).
      { unfold Spec.hasHeaderCell. apply existsb_exists. exists th. split; [exact Hin|].
        assert (Hel : exists t a k, th = Element t a k).
        { apply in_descendants_element in Hin. exact Hin. }
        destruct Hel as [t [a [k ->]]]. simpl in *. subst t. reflexivity. }
      rewrite E. reflexivity.
    + intros Hno.
      assert (E : Spec.hasHeaderCell first = false).
      { destruct (Spec.hasHeaderCell first) eqn:E; [|reflexivity].
        exfalso. apply Hno. unfold Spec.hasHeaderCell in E.
        apply existsb_exists in E as [th [Hin Hm]]. exists th. split; [exact Hin|].
        destruct th as [d|d|t a k]; simpl in Hm; try discriminate.
        rewrite orb_false_r in Hm. apply eqb_eq in Hm. exact Hm. }
      rewrite E. reflexivity.
Qed.

(** C4: an element whose trimmed text content is empty is rendered as the
    empty string, except [br], [hr] and [img], which are rendered as usual;
    so an [img] without a [src] attribute gives the empty string all the
    same. *)
Theorem C4_empty_text_suppressed (element : node) :
  trim (textContent element) = [] ->
  (tagIn [lit "br"; lit "hr"; lit "img"] (tagNameLower element) = false ->
   convertElementToMarkdown element = [])
  /\ (tagNameLower element = lit "br" -> convertElementToMarkdown element = nl)
  /\ (tagNameLower element = lit "hr" ->
      convertElementToMarkdown element = nl ++ lit "---" ++ nl ++ nl)
  /\ (tagNameLower element = lit "img" ->
      forall src, getAttribute element (lit "src") = Some src -> truthy src = true ->
      convertElementToMarkdown element
      = lit "![" ++ match getAttribute element (lit "alt") with
                    | Some alt => alt
                    | None => []
                    end ++ lit "](" ++ src ++ lit ")")
  /\ (tagNameLower element = lit "img" ->
      getAttribute element (lit "src") = None ->
      convertElementToMarkdown element = []).
Proof.
  intros Htext.
  unfold convertElementToMarkdown, convertElementToMarkdown_. cbv zeta.
  rewrite Htext. cbn [truthy negb andb].
  repeat split.
  - intros H. rewrite H. reflexivity.
  - intros H. rewrite H. reflexivity.
  - intros H. rewrite H. reflexivity.
  - intros H src Hsrc Htruthy. rewrite H, Hsrc, Htruthy. reflexivity.
  - intros H Hsrc. rewrite H, Hsrc. reflexivity.
Qed.

Lemma C4_empty_text_suppressed_witness :
  trim (textContent (Element (lit "img") [(lit "alt", lit "logo")] [])) = []
  /\ convertElementToMarkdown (Element (lit "img") [(lit "alt", lit "logo")] []) = [].
Proof.
  split; [reflexivity|].
  apply (C4_empty_text_suppressed
           (Element (lit "img") [(lit "alt", lit "logo")] []) eq_refl);
    reflexivity.
Defined.





End EmitterClaims.

(** ** The sanitizer *)
Module SanitizerClaims.
Import JsString Dom JsStringFacts DomFacts ConverterJs.

Lemma matches_removeAll (sel sel' : selector) (n : node) :
  matches sel (removeAll sel' n) = matches sel n.
Proof. destruct n; reflexivity. Qed.

Section Forests.
Variables sel sel' : selector.

Let clean (kids : list node) : bool :=
  forallb (fun kid => negb (matches sel kid) && Spec.noMatchBelow sel kid) kids.

Let strip (s : selector) (kids : list node) : list node :=
  flat_map (fun kid => if matches s kid then [] else [removeAll s kid]) kids.

Lemma forest_removed (kids : list node) :
  Forall (fun kid => Spec.noMatchBelow sel (removeAll sel kid) = true) kids ->
  clean (strip sel kids) = true.
Proof.
  unfold clean, strip. induction 1 as [|kid kids Hkid _ IH]; simpl; [reflexivity|].
  rewrite forallb_app, IH, andb_true_r.
  destruct (matches sel kid) eqn:E; simpl; [reflexivity|].
  rewrite matches_removeAll, E, Hkid. reflexivity.
Qed.

Lemma forest_stays_clean (kids : list node) :
  Forall (fun kid => Spec.noMatchBelow sel kid = true ->
                     Spec.noMatchBelow sel (removeAll sel' kid) = true) kids ->
  clean kids = true -> clean (strip sel' kids) = true.
Proof.
  unfold clean, strip. induction 1 as [|kid kids Hkid _ IH]; simpl; [reflexivity|].
  intros H. apply andb_prop in H as [Hk Hrest]. apply andb_prop in Hk as [Hm Hb].
  rewrite forallb_app, (IH Hrest), andb_true_r.
  destruct (matches sel' kid); simpl; [reflexivity|].
  rewrite matches_removeAll, Hm, (Hkid Hb). reflexivity.
Qed.

Lemma forest_unchanged (kids : list node) :
  Forall (fun kid => Spec.noMatchBelow sel kid = true -> removeAll sel kid = kid) kids ->
  clean kids = true -> strip sel kids = kids.
Proof.
  unfold clean, strip. induction 1 as [|kid kids Hkid _ IH]; simpl; [reflexivity|].
  intros H. apply andb_prop in H as [Hk Hrest]. apply andb_prop in Hk as [Hm Hb].
  apply negb_true_iff in Hm. rewrite Hm, (Hkid Hb), (IH Hrest). reflexivity.
Qed.
End Forests.

Lemma removeAll_removes (sel : selector) (n : node) :
  Spec.noMatchBelow sel (removeAll sel n) = true.
Proof.
  induction n as [d|d|tag attrs kids IH] using node_nested_ind; try reflexivity.
  simpl. apply forest_removed. exact IH.
Qed.

Lemma removeAll_stays_clean (sel sel' : selector) (n : node) :
  Spec.noMatchBelow sel n = true -> Spec.noMatchBelow sel (removeAll sel' n) = true.
Proof.
  induction n as [d|d|tag attrs kids IH] using node_nested_ind; try (intros; reflexivity).
  simpl. apply forest_stays_clean. exact IH.
Qed.

Lemma removeAll_unchanged (sel : selector) (n : node) :
  Spec.noMatchBelow sel n = true -> removeAll sel n = n.
Proof.
  induction n as [d|d|tag attrs kids IH] using node_nested_ind; try reflexivity.
  simpl. intros H. f_equal. apply forest_unchanged; assumption.
Qed.

Lemma removeAllIn_removes (sel : selector) (doc : document) :
  Spec.noMatchIn sel (removeAllIn sel doc) = true.
Proof.
  apply forest_removed. apply Forall_forall. intros kid _. apply removeAll_removes.
Qed.

Lemma removeAllIn_stays_clean (sel sel' : selector) (doc : document) :
  Spec.noMatchIn sel doc = true -> Spec.noMatchIn sel (removeAllIn sel' doc) = true.
Proof.
  apply forest_stays_clean. apply Forall_forall. intros kid _.
  apply removeAll_stays_clean.
Qed.

Lemma removeAllIn_unchanged (sel : selector) (doc : document) :
  Spec.noMatchIn sel doc = true -> removeAllIn sel doc = doc.
Proof.
  intros H. destruct doc as [kids]. unfold removeAllIn. f_equal.
  apply forest_unchanged; [|exact H].
  apply Forall_forall. intros kid _. apply removeAll_unchanged.
Qed.

Section Passes.
(** One pass for each selector of a list, as [forEach] makes them. *)
Let passes (selectors : list jsstring) (doc : document) : document :=
  fold_left (fun doc selector => removeAllIn (Tags [selector]) doc) selectors doc.

Lemma passes_stay_clean (sel : selector) (selectors : list jsstring) (doc : document) :
  Spec.noMatchIn sel doc = true -> Spec.noMatchIn sel (passes selectors doc) = true.
Proof.
  unfold passes. revert doc. induction selectors as [|s selectors IH]; intros doc H.
  - exact H.
  - simpl. apply IH. apply removeAllIn_stays_clean. exact H.
Qed.

Lemma passes_remove (selectors : list jsstring) (doc : document) (s : jsstring) :
  In s selectors -> Spec.noMatchIn (Tags [s]) (passes selectors doc) = true.
Proof.
  unfold passes. revert doc. induction selectors as [|s' selectors IH]; intros doc.
  - contradiction.
  - intros [->|H]; simpl.
    + apply passes_stay_clean. apply removeAllIn_removes.
    + apply IH. exact H.
Qed.

Lemma passes_unchanged (selectors : list jsstring) (doc : document) :
  (forall s, In s selectors -> Spec.noMatchIn (Tags [s]) doc = true) ->
  passes selectors doc = doc.
Proof.
  unfold passes. induction selectors as [|s selectors IH]; intros H.
  - reflexivity.
  - simpl. rewrite removeAllIn_unchanged by (apply H; left; reflexivity).
    apply IH. intros s' Hs'. apply H. right. exact Hs'.
Qed.
End Passes.

(** The sanitized tree holds no element with a disallowed tag name. *)
Lemma removeUnwantedElements_clean (doc : document) (s : jsstring) :
  In s unwantedSelectors ->
  Spec.noMatchIn (Tags [s]) (removeUnwantedElements doc) = true.
Proof. apply passes_remove. Qed.

(** C6: the sanitizer is idempotent: run on a tree it has already sanitized,
    it gives that tree back unchanged. *)
Theorem C6_sanitizer_idempotent (doc : document) :
  removeUnwantedElements (removeUnwantedElements doc) = removeUnwantedElements doc.
Proof.
  apply passes_unchanged. intros s Hs. apply removeUnwantedElements_clean. exact Hs.
Qed.

End SanitizerClaims.

(** ** The two copies of the emitter *)
Module EmitterCopies.
Import JsString Dom JsStringFacts DomFacts EmitterFacts.

(** Method by method, the second script's emitter reads as the first one's. *)
Lemma convertElementToMarkdown_same (pe : node -> jsstring) (n : node) :
  Part001.convertElementToMarkdown_ pe n = ConverterJs.convertElementToMarkdown_ pe n.
Proof. reflexivity. Qed.

Lemma appendNode_same (pe1 pe2 : node -> jsstring) (result : jsstring) (n : node) :
  (forall m, height m <= height n -> pe1 m = pe2 m) ->
  Part001.appendNode pe1 result n = ConverterJs.appendNode pe2 result n.
Proof.
  intros H. rewrite <- (appendNode_ext pe1 pe2 result n H).
  destruct n; reflexivity.
Qed.

Lemma processElementFuel_same (fuel : nat) (n : node) :
  Part001.processElementFuel fuel n = ConverterJs.processElementFuel fuel n.
Proof.
  revert n. induction fuel as [|fuel IH]; intros n; [reflexivity|].
  simpl. generalize (@nil N) as result.
  induction (childNodes n) as [|kid kids IHkids]; intros result; [reflexivity|].
  simpl. rewrite (appendNode_same (Part001.processElementFuel fuel)
                    (ConverterJs.processElementFuel fuel) result kid)
    by (intros m _; apply IH).
  apply IHkids.
Qed.

Lemma processElement_same (n : node) :
  Part001.processElement n = ConverterJs.processElement n.
Proof. apply processElementFuel_same. Qed.

(** C10: the emitter of the second script and the emitter of
    [js/converter.js] give the same Markdown for every node, method by
    method. *)
Theorem C10_emitter_copies_agree (n : node) :
  Part001.processElement n = ConverterJs.processElement n
  /\ Part001.convertElementToMarkdown n = ConverterJs.convertElementToMarkdown n
  /\ (forall prefix isOrdered,
        Part001.processListItems n prefix isOrdered
        = ConverterJs.processListItems n prefix isOrdered)
  /\ Part001.processTable n = ConverterJs.processTable n.
Proof.
  split; [apply processElement_same|]. split; [|split].
  - unfold Part001.convertElementToMarkdown, ConverterJs.convertElementToMarkdown.
    rewrite convertElementToMarkdown_same.
    apply convertElementToMarkdown_ext. intros m _. apply processElement_same.
  - intros prefix isOrdered.
    unfold Part001.processListItems, ConverterJs.processListItems.
    change (Part001.processListItems_ Part001.processElement n prefix isOrdered)
      with (ConverterJs.processListItems_ Part001.processElement n prefix isOrdered).
    apply processListItems_ext. intros m _. apply processElement_same.
  - unfold Part001.processTable, ConverterJs.processTable.
    change (Part001.processTable_ Part001.processElement n)
      with (ConverterJs.processTable_ Part001.processElement n).
    apply processTable_ext. intros m _. apply processElement_same.
Qed.

End EmitterCopies.

(** ** Document order and the walk of the range extractor *)
Module ExtractorFacts.
Import JsString Dom JsStringFacts DomFacts Part001.

Lemma ForallOrdPairs_app (A : Type) (R : A -> A -> Prop) (l1 l2 : list A) :
  ForallOrdPairs R l1 -> ForallOrdPairs R l2 ->
  (forall x y, In x l1 -> In y l2 -> R x y) ->
  ForallOrdPairs R (l1 ++ l2).
Proof.
  induction 1 as [|a l Ha Hl IH]; intros H2 Hcross; simpl; [exact H2|].
  constructor.
  - apply Forall_app. split; [exact Ha|].
    apply Forall_forall. intros y Hy. apply Hcross; [left; reflexivity | exact Hy].
  - apply IH; [exact H2|]. intros x y Hx Hy. apply Hcross; [right; exact Hx | exact Hy].
Qed.

Lemma ForallOrdPairs_split (A : Type) (R : A -> A -> Prop) (l1 l2 : list A) (x : A) :
  ForallOrdPairs R (l1 ++ x :: l2) ->
  (forall y, In y l1 -> R y x) /\ (forall y, In y l2 -> R x y).
Proof.
  induction l1 as [|a l1 IH]; simpl; intros H; inversion H as [|b l Hb Hl]; subst.
  - split; [contradiction|]. apply Forall_forall. exact Hb.
  - destruct (IH Hl) as [H1 H2]. split; [|exact H2].
    intros y [<-|Hy]; [|apply H1; exact Hy].
    rewrite Forall_forall in Hb. apply Hb. apply in_or_app. right. left. reflexivity.
Qed.

(** *** The shape of the places listed by [querySelectorAll] *)

Lemma eachChild_shape (kids : list node) (parent : handle) (index : nat)
    (r : elementRef) :
  Forall (fun kid => forall h r, In r (descendantRefs h kid) ->
                     isElement (target r) = true
                     /\ exists deeper, deeper <> [] /\ position r = deeper ++ h)
    kids ->
  In r (eachChild descendantRefs parent index kids) ->
  isElement (target r) = true
  /\ exists deeper j, index <= j /\ position r = deeper ++ j :: parent.
Proof.
  intros below_shape. revert index.
  induction below_shape as [|kid rest Hkid _ IH]; intros index; simpl;
    [contradiction|].
  intros H. apply in_app_or in H as [H|H].
  - destruct (isElement kid) eqn:E; [|contradiction].
    destruct H as [<-|H]; simpl.
    + split; [exact E|]. exists [], index. split; [lia | reflexivity].
    + destruct (Hkid _ _ H) as [Hel [deeper [_ Hpos]]]. split; [exact Hel|].
      exists deeper, index. split; [lia | exact Hpos].
  - destruct (IH _ H) as [Hel [deeper [j [Hj Hpos]]]]. split; [exact Hel|].
    exists deeper, j. split; [lia | exact Hpos].
Qed.

Lemma descendantRefs_shape (n : node) (h : handle) (r : elementRef) :
  In r (descendantRefs h n) ->
  isElement (target r) = true
  /\ exists deeper, deeper <> [] /\ position r = deeper ++ h.
Proof.
  revert h r. induction n as [d|d|tag attrs kids IH] using node_nested_ind;
    intros h r; simpl; try contradiction.
  intros H. destruct (@eachChild_shape _ _ _ _ IH H) as [Hel [deeper [j [_ Hpos]]]].
  split; [exact Hel|]. exists (deeper ++ [j]). split.
  - destruct deeper; discriminate.
  - rewrite Hpos, <- app_assoc. reflexivity.
Qed.

Lemma descendantRefs_shape_all (kids : list node) :
  Forall (fun kid => forall h r, In r (descendantRefs h kid) ->
                     isElement (target r) = true
                     /\ exists deeper, deeper <> [] /\ position r = deeper ++ h)
    kids.
Proof. apply Forall_forall. intros kid _ h r. apply descendantRefs_shape. Qed.

Lemma allElements_isElement (doc : document) (r : elementRef) :
  In r (allElements doc) -> isElement (target r) = true.
Proof.
  intros H. apply (@eachChild_shape _ _ _ _ (descendantRefs_shape_all _)) in H. tauto.
Qed.

(** *** Parents come first *)

Lemma eachChild_parentsFirst (kids : list node) (parent : handle) (index : nat) :
  Forall (fun kid => forall h, Spec.parentsFirst (descendantRefs h kid)) kids ->
  Spec.parentsFirst (eachChild descendantRefs parent index kids).
Proof.
  unfold Spec.parentsFirst. intros below_ordered. revert index.
  induction below_ordered as [|kid rest Hkid Hrest IH]; intros index;
    simpl; [constructor|].
  apply ForallOrdPairs_app.
  - destruct (isElement kid); [|constructor]. constructor; [|apply Hkid].
    apply Forall_forall. intros y Hy deeper. simpl.
    apply descendantRefs_shape in Hy as [_ [below [Hne Hpos]]].
    rewrite Hpos. intros E.
    assert (L : List.length (index :: parent)
                = List.length (deeper ++ below ++ index :: parent))
      by (rewrite <- E; reflexivity).
    rewrite !length_app in L. destruct below; [contradiction | simpl in L; lia].
  - apply IH.
  - intros x y Hx Hy deeper.
    assert (Hxpos : exists zx, position x = zx ++ index :: parent).
    { destruct (isElement kid); [|contradiction].
      destruct Hx as [<-|Hx]; [exists []; reflexivity|].
      apply descendantRefs_shape in Hx as [_ [zx [_ Hpos]]]. exists zx. exact Hpos. }
    destruct Hxpos as [zx Hxpos].
    apply (@eachChild_shape _ _ _ _ (descendantRefs_shape_all rest)) in Hy
      as [_ [zy [j [Hj Hypos]]]].
    rewrite Hxpos, Hypos. intros E.
    change (zx ++ index :: parent) with (zx ++ [index] ++ parent) in E.
    change (zy ++ j :: parent) with (zy ++ [j] ++ parent) in E.
    rewrite !app_assoc in E. apply app_inv_tail in E.
    apply app_inj_tail in E as [_ E]. lia.
Qed.

Lemma descendantRefs_parentsFirst (n : node) (h : handle) :
  Spec.parentsFirst (descendantRefs h n).
Proof.
  revert h. induction n as [d|d|tag attrs kids IH] using node_nested_ind; intros h;
    simpl; try constructor.
  apply eachChild_parentsFirst. exact IH.
Qed.

(** [querySelectorAll('*')] lists every parent before its children, and no
    element twice. *)
Lemma allElements_parentsFirst (doc : document) : Spec.parentsFirst (allElements doc).
Proof.
  apply eachChild_parentsFirst. apply Forall_forall. intros kid _ h.
  apply descendantRefs_parentsFirst.
Qed.

(** *** Identity of element objects *)

Lemma sameElement_true (a b : elementRef) :
  sameElement a b = true <-> position a = position b.
Proof.
  unfold sameElement. destruct (list_eq_dec Nat.eq_dec (position a) (position b));
    split; congruence.
Qed.

Lemma sameElement_false (a b : elementRef) :
  sameElement a b = false <-> position a <> position b.
Proof.
  unfold sameElement. destruct (list_eq_dec Nat.eq_dec (position a) (position b));
    split; congruence.
Qed.

Lemma parentsFirst_distinct (before after : list elementRef) (s : elementRef) :
  Spec.parentsFirst (before ++ s :: after) ->
  (forall x, In x before -> sameElement x s = false)
  /\ (forall y, In y after -> sameElement y s = false).
Proof.
  intros H. apply ForallOrdPairs_split in H as [Hb Ha]. split.
  - intros x Hx. apply sameElement_false. exact (Hb x Hx []).
  - intros y Hy. apply sameElement_false. intros E. exact (Ha y Hy [] (eq_sym E)).
Qed.

(** *** The two loops of [extractSpecificSection] *)

Lemma findStart_first (l : list elementRef) (s : elementRef) :
  findStart l = Some s ->
  exists before after,
    l = before ++ s :: after
    /\ hasStartMarker s = true
    /\ (forall e, In e before -> hasStartMarker e = false).
Proof.
  induction l as [|x l IH]; simpl; [discriminate|].
  destruct (hasStartMarker x) eqn:E.
  - intros H. injection H as <-. exists [], l. repeat split; [exact E | contradiction].
  - intros H. destruct (IH H) as [before [after [-> [Hs Hb]]]].
    exists (x :: before), after. repeat split; [exact Hs|].
    intros e [<-|He]; [exact E | apply Hb; exact He].
Qed.

Lemma findStart_none (l : list elementRef) :
  findStart l = None <-> (forall e, In e l -> hasStartMarker e = false).
Proof.
  induction l as [|x l IH]; simpl.
  - split; [contradiction | reflexivity].
  - destruct (hasStartMarker x) eqn:E; split.
    + discriminate.
    + intros H. rewrite (H x (or_introl eq_refl)) in E. discriminate.
    + intros H e [<-|He]; [exact E | apply IH; assumption].
    + intros H. apply IH. intros e He. apply H. right. exact He.
Qed.

Lemma findEnd_skips_before (before after : list elementRef) (s : elementRef) :
  (forall x, In x before -> sameElement x s = false) ->
  findEnd (before ++ s :: after) s false = findEnd after s true.
Proof.
  induction before as [|x before IH]; intros H; simpl.
  - rewrite (proj2 (sameElement_true s s) eq_refl). reflexivity.
  - rewrite (H x (or_introl eq_refl)). simpl. apply IH.
    intros y Hy. apply H. right. exact Hy.
Qed.

Lemma findEnd_after_none (after : list elementRef) (s : elementRef) :
  (forall y, In y after -> sameElement y s = false) ->
  findEnd after s true = None <-> (forall e, In e after -> hasEndMarker e = false).
Proof.
  induction after as [|x after IH]; intros H; simpl.
  - split; [contradiction | reflexivity].
  - rewrite (H x (or_introl eq_refl)).
    assert (H' : forall y, In y after -> sameElement y s = false)
      by (intros y Hy; apply H; right; exact Hy).
    destruct (hasEndMarker x) eqn:E; split.
    + discriminate.
    + intros He. rewrite (He x (or_introl eq_refl)) in E. discriminate.
    + intros Hn e [<-|He]; [exact E | apply (IH H'); assumption].
    + intros Hn. apply (IH H'). intros e He. apply Hn. right. exact He.
Qed.

(** *** The walk of [extractElementsRange] ends *)

Lemma firstElementFrom_spec (nodes : list node) (index j : nat) (n : node) :
  firstElementFrom index nodes = Some (j, n) ->
  index <= j < index + List.length nodes /\ isElement n = true.
Proof.
  revert index. induction nodes as [|x nodes IH]; intros index; simpl; [discriminate|].
  destruct (isElement x) eqn:E.
  - intros H. injection H as <- <-. split; [lia | exact E].
  - intros H. apply IH in H. split; [lia | tauto].
Qed.

Lemma nextElementSibling_steps (doc : document) (h : handle) (r : elementRef) :
  nextElementSibling doc h = Some r ->
  stepsBound doc (position r) < stepsBound doc h /\ isElement (target r) = true.
Proof.
  destruct h as [|index parent]; unfold nextElementSibling; [discriminate|].
  destruct (firstElementFrom (S index) (skipn (S index) (childNodesAt doc parent)))
    as [[j n]|] eqn:E; [|discriminate].
  intros H. injection H as <-. cbn [position target stepsBound].
  apply firstElementFrom_spec in E as [Hj Hel]. rewrite length_skipn in Hj.
  split; [lia | exact Hel].
Qed.

Lemma ancestorLoop_steps (doc : document) (parent : handle) (r : elementRef) :
  ancestorLoop doc parent = Some r ->
  stepsBound doc (position r) < stepsBound doc parent /\ isElement (target r) = true.
Proof.
  induction parent as [|index grandparent IH]; [discriminate|].
  cbn [ancestorLoop].
  destruct (nextElementSibling doc (index :: grandparent)) as [next|] eqn:E.
  - intros H. injection H as <-. apply nextElementSibling_steps. exact E.
  - intros H. apply IH in H. simpl. split; [lia | tauto].
Qed.

Lemma getNextElement_steps (doc : document) (element r : elementRef) :
  getNextElement doc element = Some r ->
  stepsBound doc (position r) < stepsBound doc (position element)
  /\ isElement (target r) = true.
Proof.
  unfold getNextElement.
  destruct (nextElementSibling doc (position element)) as [next|] eqn:E.
  - intros H. injection H as <-. apply nextElementSibling_steps. exact E.
  - intros H. apply ancestorLoop_steps in H.
    destruct (position element) as [|index parent]; simpl in *; split; try tauto; lia.
Qed.

(** Fuel for one test more than the steps left is enough for the loop. *)
Lemma collectLoop_runs (doc : document) (endElement : elementRef) (fuel : nat) :
  forall nextElement elementsToInclude,
    match nextElement with
    | None => 1
    | Some next => stepsBound doc (position next) + 2
    end <= fuel ->
    exists more,
      collectLoop fuel doc nextElement endElement elementsToInclude
      = Ran (elementsToInclude ++ more).
Proof.
  induction fuel as [|fuel IH]; intros nextElement acc Hfuel.
  - destruct nextElement; lia.
  - destruct nextElement as [next|]; simpl.
    + destruct (sameElement next endElement).
      * exists []. rewrite app_nil_r. reflexivity.
      * destruct (IH (getNextElement doc next) (acc ++ [cloneNode (target next)]))
          as [more Hmore].
        { destruct (getNextElement doc next) as [r|] eqn:E; [|lia].
          apply getNextElement_steps in E. lia. }
        exists (cloneNode (target next) :: more). rewrite Hmore, <- app_assoc.
        reflexivity.
    + exists []. rewrite app_nil_r. reflexivity.
Qed.

(** [extractElementsRange] returns, and what it returns is a container that
    starts with the copy of the start element. *)
Lemma extractElementsRange_runs (doc : document) (startElement endElement : elementRef) :
  isElement (target startElement) = true ->
  exists more,
    extractElementsRange doc startElement endElement
    = Ran (Some (Element (lit "div") [] (cloneNode (target startElement) :: more))).
Proof.
  intros Hel. unfold extractElementsRange.
  destruct (@collectLoop_runs doc endElement (S (stepsBound doc (position startElement)))
              (getNextElement doc startElement) [cloneNode (target startElement)])
    as [more Hmore].
  { destruct (getNextElement doc startElement) as [r|] eqn:E; [|lia].
    apply getNextElement_steps in E. lia. }
  exists more. rewrite Hmore. unfold containerOf, children. simpl.
  rewrite cloneNode_id, Hel. reflexivity.
Qed.

End ExtractorFacts.

(** ** The claims on the range extractor and the scoped conversion *)
Module ExtractorClaims.
Import JsString Dom JsStringFacts DomFacts Part001 ExtractorFacts.

(** C1: when some element has the start marker in its text, the first loop
    selects the first such element of [querySelectorAll('*')], a list in
    document order with parents before their children.  No ancestor of the
    selected element has the marker; and of an ancestor and a descendant that
    both have it, the descendant is not the one selected. *)
Theorem C1_start_is_first_in_document_order (doc : document) :
  (exists e, In e (allElements doc) /\ hasStartMarker e = true) ->
  Spec.parentsFirst (allElements doc)
  /\ exists startElement before after,
       findStart (allElements doc) = Some startElement
       /\ allElements doc = before ++ startElement :: after
       /\ hasStartMarker startElement = true
       /\ (forall e, In e before -> hasStartMarker e = false)
       /\ (forall a, In a (allElements doc) ->
                     Spec.properAncestor (position a) (position startElement) ->
                     hasStartMarker a = false)
       /\ (forall a d, In a (allElements doc) -> In d (allElements doc) ->
                       Spec.properAncestor (position a) (position d) ->
                       hasStartMarker a = true -> hasStartMarker d = true ->
                       position startElement <> position d).
Proof.
  intros [e [He Hmark]]. split; [apply allElements_parentsFirst|].
  destruct (findStart (allElements doc)) as [s|] eqn:Hfind.
  2:{ rewrite findStart_none in Hfind. rewrite (Hfind e He) in Hmark. discriminate. }
  destruct (findStart_first _ _ Hfind) as [before [after [Hall [Hs Hbefore]]]].
  assert (Hanc : forall a, In a (allElements doc) ->
                           Spec.properAncestor (position a) (position s) ->
                           hasStartMarker a = false).
  { intros a Ha [deeper [Hne Hpos]].
    pose proof (allElements_parentsFirst doc) as Hord. rewrite Hall in Hord.
    apply ForallOrdPairs_split in Hord as [_ Hafter].
    rewrite Hall in Ha. apply in_app_or in Ha as [Ha|[<-|Ha]].
    - apply Hbefore. exact Ha.
    - exfalso. apply (f_equal (@List.length nat)) in Hpos.
      rewrite length_app in Hpos. destruct deeper; [contradiction | simpl in Hpos; lia].
    - exfalso. exact (Hafter a Ha deeper Hpos). }
  exists s, before, after. repeat split; try assumption.
  intros a d Ha Hd Hanc' Hma Hmd E. rewrite <- E in Hanc'.
  rewrite (Hanc a Ha Hanc') in Hma. discriminate.
Qed.

Lemma C1_start_is_first_in_document_order_witness :
  Spec.parentsFirst (allElements Examples.nested)
  /\ exists startElement before after,
       findStart (allElements Examples.nested) = Some startElement
       /\ allElements Examples.nested = before ++ startElement :: after
       /\ hasStartMarker startElement = true
       /\ (forall e, In e before -> hasStartMarker e = false)
       /\ (forall a, In a (allElements Examples.nested) ->
                     Spec.properAncestor (position a) (position startElement) ->
                     hasStartMarker a = false)
       /\ (forall a d, In a (allElements Examples.nested) ->
                       In d (allElements Examples.nested) ->
                       Spec.properAncestor (position a) (position d) ->
                       hasStartMarker a = true -> hasStartMarker d = true ->
                       position startElement <> position d).
Proof.
  apply (C1_start_is_first_in_document_order Examples.nested).
  exists (ElementRef [0; 1; 0] (Element (lit "div") []
                                  [Element (lit "p") [] [Text startMarker]])).
  split; [|reflexivity]. simpl. tauto.
Defined.

(** On [Examples.nested] every element from [html] down to [p] has the
    marker, and it is [html], the outermost, that is selected. *)
Example start_of_nested :
  option_map position (findStart (allElements Examples.nested)) = Some [0]
  /\ map position (filter hasStartMarker (allElements Examples.nested))
     = [[0]; [1; 0]; [0; 1; 0]; [0; 0; 1; 0]].
Proof. split; reflexivity. Qed.

(** The first loop leaves no element selected exactly when no element has
    the marker. *)
Lemma extractSpecificSection_start_absent (doc : document) :
  (forall e, In e (allElements doc) -> hasStartMarker e = false) ->
  extractSpecificSection doc = Ran None.
Proof.
  intros H. unfold extractSpecificSection.
  rewrite (proj2 (findStart_none (allElements doc)) H). reflexivity.
Qed.

Lemma extractSpecificSection_end_absent (doc : document) (s : elementRef)
    (before after : list elementRef) :
  findStart (allElements doc) = Some s ->
  allElements doc = before ++ s :: after ->
  (forall e, In e after -> hasEndMarker e = false) ->
  extractSpecificSection doc = Ran None.
Proof.
  intros Hfind Hall Hend. unfold extractSpecificSection. rewrite Hfind.
  pose proof (allElements_parentsFirst doc) as Hord. rewrite Hall in Hord.
  apply parentsFirst_distinct in Hord as [Hb Ha].
  rewrite Hall, (@findEnd_skips_before before after s Hb).
  rewrite (proj2 (@findEnd_after_none after s Ha) Hend). reflexivity.
Qed.

(** C2: when the start element is found and no element after it in the list
    has one of the end markers, [convertHtmlToMarkdown] returns the notice:
    the call returns (nothing is thrown) and no Markdown of a part of the
    range is produced. *)
Theorem C2_missing_end_gives_warning (parseFromString : jsstring -> option document)
    (html : jsstring) (doc : document) (startElement : elementRef) :
  parseFromString html = Some doc ->
  findStart (allElements (removeUnwantedElements doc)) = Some startElement ->
  (forall before after,
     allElements (removeUnwantedElements doc) = before ++ startElement :: after ->
     forall e, In e after -> hasEndMarker e = false) ->
  convertHtmlToMarkdown parseFromString html = Ran (Return warning).
Proof.
  intros Hparse Hfind Hend. unfold convertHtmlToMarkdown. rewrite Hparse.
  destruct (findStart_first _ _ Hfind) as [before [after [Hall _]]].
  rewrite (extractSpecificSection_end_absent _ _ _ _ Hfind Hall (Hend before after Hall)).
  reflexivity.
Qed.

Lemma C2_missing_end_gives_warning_witness :
  convertHtmlToMarkdown (fun _ => Some Examples.nested) [] = Ran (Return warning).
Proof.
  apply (C2_missing_end_gives_warning (fun _ => Some Examples.nested) []
           Examples.nested
           (ElementRef [0]
              (Element (lit "html") []
                 [Element (lit "head") [] [];
                  Element (lit "body") []
                    [Element (lit "div") []
                       [Element (lit "p") [] [Text startMarker]]]]))).
  - reflexivity.
  - reflexivity.
  - intros before after Hall e He.
    assert (Hin : In e (allElements (removeUnwantedElements Examples.nested))).
    { rewrite Hall. apply in_or_app. right. right. exact He. }
    vm_compute in Hin.
    repeat (destruct Hin as [<-|Hin]; [reflexivity|]). contradiction.
Defined.

(** [extractSpecificSection] always returns: [null] when the range is not
    found, and otherwise a container whose first child is the copy of the
    start element. *)
Lemma extractSpecificSection_cases (doc : document) :
  ((Spec.startAbsent doc \/ Spec.endAbsent doc)
   /\ extractSpecificSection doc = Ran None)
  \/ (exists startElement endElement more,
        findStart (allElements doc) = Some startElement
        /\ findEnd (allElements doc) startElement false = Some endElement
        /\ extractSpecificSection doc
           = Ran (Some (Element (lit "div") []
                          (cloneNode (target startElement) :: more)))).
Proof.
  destruct (findStart (allElements doc)) as [s|] eqn:Hfind.
  2:{ left. split.
      - left. exact (proj1 (findStart_none _) Hfind).
      - apply extractSpecificSection_start_absent.
        exact (proj1 (findStart_none _) Hfind). }
  destruct (findStart_first _ _ Hfind) as [before [after [Hall [Hs Hb]]]].
  pose proof (allElements_parentsFirst doc) as Hord. rewrite Hall in Hord.
  apply parentsFirst_distinct in Hord as [Hdb Hda].
  destruct (findEnd (allElements doc) s false) as [e|] eqn:Hend.
  - right.
    assert (Hel : isElement (target s) = true).
    { apply (allElements_isElement doc). rewrite Hall. apply in_or_app.
      right. left. reflexivity. }
    destruct (extractElementsRange_runs doc s e Hel) as [more Hmore].
    exists s, e, more. split; [reflexivity|]. split; [exact Hend|].
    unfold extractSpecificSection. rewrite Hfind, Hend. exact Hmore.
  - left.
    assert (Hnone : forall x, In x after -> hasEndMarker x = false).
    { apply (proj1 (findEnd_after_none after s Hda)).
      rewrite <- (findEnd_skips_before before after s Hdb), <- Hall. exact Hend. }
    split.
    + right. exists s, before, after. repeat split; assumption.
    + apply (extractSpecificSection_end_absent doc s before after Hfind Hall Hnone).
Qed.

(** C3, as the code has it: [extractElementsRange] returns a container that
    holds at least the copy of the start element, so its [null] for an empty
    container is never taken; [extractSpecificSection] returns [null] exactly
    when the start marker is absent or no end marker occurs after the start
    element; in those cases [convertHtmlToMarkdown] returns the notice, and in
    all others the trimmed rendering of the container. *)
Theorem C3_container_holds_start (parseFromString : jsstring -> option document)
    (html : jsstring) (raw : document) :
  parseFromString html = Some raw ->
  let doc := removeUnwantedElements raw in
  (forall startElement endElement,
     In startElement (allElements doc) ->
     exists more,
       extractElementsRange doc startElement endElement
       = Ran (Some (Element (lit "div") []
                      (cloneNode (target startElement) :: more))))
  /\ (extractSpecificSection doc = Ran None
      <-> Spec.startAbsent doc \/ Spec.endAbsent doc)
  /\ (Spec.startAbsent doc \/ Spec.endAbsent doc ->
      convertHtmlToMarkdown parseFromString html = Ran (Return warning))
  /\ (~ (Spec.startAbsent doc \/ Spec.endAbsent doc) ->
      exists startElement more,
        findStart (allElements doc) = Some startElement
        /\ convertHtmlToMarkdown parseFromString html
           = Ran (Return (trim (processElement
                                  (Element (lit "div") []
                                     (cloneNode (target startElement) :: more)))))).
Proof.
  intros Hparse doc.
  assert (Hnull : Spec.startAbsent doc \/ Spec.endAbsent doc ->
                  extractSpecificSection doc = Ran None).
  { intros [H|[s [before [after [Hfind [Hall Hend]]]]]].
    - apply extractSpecificSection_start_absent. exact H.
    - apply (extractSpecificSection_end_absent doc s before after Hfind Hall Hend). }
  split; [|split; [|split]].
  - intros s e Hs. apply extractElementsRange_runs.
    apply (allElements_isElement doc). exact Hs.
  - split; [|exact Hnull].
    intros H. destruct (extractSpecificSection_cases doc)
      as [[Hnot _]|[s [e [more [_ [_ Hsome]]]]]]; [exact Hnot|].
    rewrite Hsome in H. discriminate.
  - intros H. unfold convertHtmlToMarkdown. rewrite Hparse.
    fold doc. rewrite (Hnull H). reflexivity.
  - intros H. destruct (extractSpecificSection_cases doc)
      as [[Hnot _]|[s [e [more [Hfind [_ Hsome]]]]]]; [contradiction|].
    exists s, more. split; [exact Hfind|].
    unfold convertHtmlToMarkdown. rewrite Hparse. fold doc. rewrite Hsome.
    reflexivity.
Qed.

Lemma C3_container_holds_start_witness :
  convertHtmlToMarkdown (fun _ => Some Examples.nested) [] = Ran (Return warning).
Proof.
  refine (proj1 (proj2 (proj2
            (C3_container_holds_start (fun _ => Some Examples.nested) []
               Examples.nested eq_refl))) _).
  right.
  exists (ElementRef [0]
            (Element (lit "html") []
               [Element (lit "head") [] [];
                Element (lit "body") []
                  [Element (lit "div") []
                     [Element (lit "p") [] [Text startMarker]]]])),
    [],
    [ElementRef [0; 0] (Element (lit "head") [] []);
     ElementRef [1; 0]
       (Element (lit "body") []
          [Element (lit "div") [] [Element (lit "p") [] [Text startMarker]]]);
     ElementRef [0; 1; 0]
       (Element (lit "div") [] [Element (lit "p") [] [Text startMarker]]);
     ElementRef [0; 0; 1; 0] (Element (lit "p") [] [Text startMarker])].
  split; [reflexivity|]. split; [reflexivity|].
  intros e He. simpl in He.
  repeat (destruct He as [<-|He]; [reflexivity|]). contradiction.
Defined.

(** The notice is also what a page renders to when its text is the notice:
    on [Examples.noticePage] both markers are found ([html] is the start
    element, [body] after it has an end marker), the conversion goes through
    the emitter, and the string returned is the notice all the same. *)
Lemma C3_notice_returned_with_both_markers_found :
  convertHtmlToMarkdown (fun _ => Some Examples.noticePage) [] = Ran (Return warning)
  /\ option_map position
       (findStart (allElements (removeUnwantedElements Examples.noticePage)))
     = Some [0]
  /\ (exists startElement endElement,
        findStart (allElements (removeUnwantedElements Examples.noticePage))
        = Some startElement
        /\ allElements (removeUnwantedElements Examples.noticePage)
           = [startElement; ElementRef [0; 0] (Element (lit "head") [] []); endElement]
        /\ hasStartMarker startElement = true
        /\ hasEndMarker endElement = true)
  /\ (exists container,
        extractSpecificSection (removeUnwantedElements Examples.noticePage)
        = Ran (Some container)).
Proof.
  split; [vm_compute; reflexivity|]. split; [vm_compute; reflexivity|]. split.
  - eexists. eexists. split; [vm_compute; reflexivity|].
    split; [vm_compute; reflexivity|]. split; vm_compute; reflexivity.
  - eexists. vm_compute. reflexivity.
Qed.





End ExtractorClaims.

(** ** The emitter and the document it reads *)
Module StateClaims.
Import JsString Dom JsStringFacts DomFacts ConverterJsState.

Lemma preserves_ret (A : Type) (a : A) : preserves (ret a).
Proof. intros dom. reflexivity. Qed.

Lemma preserves_read (A : Type) (f : document -> A) : preserves (read f).
Proof. intros dom. reflexivity. Qed.

Lemma preserves_bind (A B : Type) (m : DomM A) (k : A -> DomM B) :
  preserves m -> (forall a, preserves (k a)) -> preserves (bind m k).
Proof.
  intros Hm Hk dom. unfold bind. specialize (Hm dom).
  destruct (m dom) as [a dom']. simpl in Hm. subst dom'. apply Hk.
Qed.

Lemma preserves_forOf (A R : Type) (f : R -> A -> DomM R) (l : list A) :
  (forall acc x, preserves (f acc x)) -> forall acc, preserves (forOf f l acc).
Proof.
  intros Hf. induction l as [|x l IH]; intros acc; simpl.
  - apply preserves_ret.
  - apply preserves_bind; [apply Hf | exact IH].
Qed.

Lemma preserves_mapiM (A B : Type) (f : A -> nat -> DomM B) (l : list A) :
  (forall x index, preserves (f x index)) -> preserves (mapiM f l).
Proof.
  intros Hf. unfold mapiM. generalize 0 as index.
  induction l as [|x l IH]; intros index; simpl.
  - apply preserves_ret.
  - apply preserves_bind; [apply Hf|]. intros y.
    apply preserves_bind; [apply IH|]. intros ys. apply preserves_ret.
Qed.

Lemma preserves_filterM (A : Type) (p : A -> DomM bool) (l : list A) :
  (forall x, preserves (p x)) -> preserves (filterM p l).
Proof.
  intros Hp. induction l as [|x l IH]; simpl.
  - apply preserves_ret.
  - apply preserves_bind; [apply Hp|]. intros keep.
    apply preserves_bind; [exact IH|]. intros rest. apply preserves_ret.
Qed.

Lemma preserves_forEachiM (A R : Type) (f : R -> A -> nat -> DomM R) (l : list A) :
  (forall acc x index, preserves (f acc x index)) ->
  forall acc, preserves (forEachiM f l acc).
Proof.
  intros Hf. unfold forEachiM. generalize 0 as index.
  induction l as [|x l IH]; intros index acc; simpl.
  - apply preserves_ret.
  - apply preserves_bind; [apply Hf | intros acc'; apply IH].
Qed.

(** One step of a proof that a method only reads. *)
Ltac reads_only :=
  repeat first
    [ apply preserves_ret
    | apply preserves_read
    | assumption
    | match goal with H : forall h, preserves (?f h) |- preserves (?f _) => apply H end
    | apply preserves_bind; [|intros ?]
    | apply preserves_mapiM; intros ? ?
    | apply preserves_filterM; intros ?
    | apply preserves_forEachiM; intros ? ? ?
    | match goal with
      | |- preserves (if ?c then _ else _) => destruct c
      | |- preserves (match ?x with _ => _ end) => destruct x
      end ].

Section Methods.
Variable this_processElement : handle -> DomM jsstring.
Hypothesis this_reads_only : forall h, preserves (this_processElement h).

Lemma processListItems_preserves (h : handle) (prefix : option jsstring)
    (isOrdered : bool) :
  preserves (processListItems_ this_processElement h prefix isOrdered).
Proof. unfold processListItems_. reads_only. Qed.

Lemma processTable_preserves (h : handle) :
  preserves (processTable_ this_processElement h).
Proof. unfold processTable_. reads_only. Qed.

Lemma convertElementToMarkdown_preserves (h : handle) :
  preserves (convertElementToMarkdown_ this_processElement h).
Proof.
  unfold convertElementToMarkdown_.
  apply preserves_bind; [apply preserves_read | intros tagName].
  apply preserves_bind; [apply preserves_read | intros textContent].
  repeat match goal with
         | |- preserves (if ?c then _ else _) => destruct c
         end;
    try apply processListItems_preserves;
    try apply processTable_preserves;
    reads_only;
    try apply processListItems_preserves.
Qed.

Lemma appendNode_preserves (result : jsstring) (h : handle) :
  preserves (appendNode this_processElement result h).
Proof.
  unfold appendNode.
  apply preserves_bind; [apply preserves_read | intros type].
  destruct type.
  - reads_only.
  - apply preserves_bind; [apply convertElementToMarkdown_preserves|].
    intros rendered. apply preserves_ret.
  - apply preserves_ret.
Qed.
End Methods.

Lemma processElementFuel_preserves (fuel : nat) (h : handle) :
  preserves (processElementFuel fuel h).
Proof.
  revert h. induction fuel as [|fuel IH]; intros h; simpl.
  - apply preserves_ret.
  - apply preserves_bind; [apply preserves_read | intros kids].
    apply preserves_forOf. intros acc x. apply appendNode_preserves. exact IH.
Qed.

Lemma processElement_preserves (h : handle) : preserves (processElement h).
Proof. intros dom. unfold processElement. apply processElementFuel_preserves. Qed.

(** C7: the emitter leaves the document as it found it: whatever node
    [processElement], [convertElementToMarkdown], [processListItems] or
    [processTable] is called on, the document after the call is the document
    before it, node for node. *)
Theorem C7_emitter_leaves_document_unchanged (element : handle) (dom : document) :
  (forall fuel, snd (processElementFuel fuel element dom) = dom)
  /\ snd (processElement element dom) = dom
  /\ snd (convertElementToMarkdown element dom) = dom
  /\ (forall prefix isOrdered,
        snd (processListItems element prefix isOrdered dom) = dom)
  /\ snd (processTable element dom) = dom.
Proof.
  split; [intros fuel; apply processElementFuel_preserves|].
  split; [apply processElement_preserves|].
  split; [apply convertElementToMarkdown_preserves, processElement_preserves|].
  split; [intros prefix isOrdered;
          apply processListItems_preserves, processElement_preserves|].
  apply processTable_preserves, processElement_preserves.
Qed.

(** [el.remove()], which the sanitizer calls, does change the document. *)
Example remove_changes_document :
  snd (call_remove [0; 0] Examples.noticePage)
  = Document [Element (lit "html") [] [Element (lit "body") [] [Text Part001.warning]]]
  /\ snd (call_remove [0; 0] Examples.noticePage) <> Examples.noticePage.
Proof. split; [reflexivity | discriminate]. Qed.

End StateClaims.

(** ** The emitter on handles computes what the emitter on trees computes *)
Module StateSimulation.
Import JsString Dom JsStringFacts DomFacts ConverterJsState.

Lemma returns_ret (A : Type) (dom : document) (a : A) : returns dom (ret a) a.
Proof. reflexivity. Qed.

Lemma returns_bind (A B : Type) (dom : document) (m : DomM A) (k : A -> DomM B)
    (a : A) (b : B) :
  returns dom m a -> returns dom (k a) b -> returns dom (bind m k) b.
Proof. unfold returns, bind. intros Hm Hk. rewrite Hm. exact Hk. Qed.

Lemma Forall2_map_left (A B C : Type) (R : B -> C -> Prop) (f : A -> B)
    (l : list A) (l' : list C) :
  Forall2 (fun a c => R (f a) c) l l' -> Forall2 R (map f l) l'.
Proof. induction 1; simpl; constructor; assumption. Qed.

(** The indices of a list, each with the member found there. *)
Lemma seq_members (A : Type) (l pre : list A) :
  Forall2 (fun index x => nth_error (pre ++ l) index = Some x)
    (seq (List.length pre) (List.length l)) l.
Proof.
  revert pre. induction l as [|x l IH]; intros pre; simpl; constructor.
  - rewrite nth_error_app2 by lia. rewrite Nat.sub_diag. reflexivity.
  - specialize (IH (pre ++ [x])). rewrite <- app_assoc, length_app in IH.
    simpl in IH. rewrite Nat.add_1_r in IH. exact IH.
Qed.

Lemma seq_members_filter (A : Type) (f : A -> bool) (l pre : list A) :
  Forall2 (fun index x => nth_error (pre ++ l) index = Some x)
    (filter (fun index => match nth_error (pre ++ l) index with
                          | Some x => f x
                          | None => false
                          end)
       (seq (List.length pre) (List.length l)))
    (filter f l).
Proof.
  revert pre. induction l as [|x l IH]; intros pre; simpl; [constructor|].
  rewrite nth_error_app2 by lia. rewrite Nat.sub_diag. simpl.
  specialize (IH (pre ++ [x])). rewrite <- app_assoc, length_app in IH.
  simpl in IH. rewrite Nat.add_1_r in IH.
  destruct (f x); [constructor|]; try exact IH.
  rewrite nth_error_app2 by lia. rewrite Nat.sub_diag. reflexivity.
Qed.

Section OnADocument.
Variable dom : document.

(** The node [n] is the one found at [h]. *)
Let placed (h : handle) (n : node) : Prop := nodeAt dom h = Some n.

Lemma childNodesAt_placed (h : handle) (n : node) :
  placed h n -> childNodesAt dom h = childNodes n.
Proof.
  unfold placed. destruct h as [|index parent]; simpl; [discriminate|].
  intros H. rewrite H. reflexivity.
Qed.

(** *** The getters *)

Lemma get_tagNameLower_placed (h : handle) (n : node) :
  placed h n -> returns dom (get_tagNameLower h) (tagNameLower n).
Proof. intros H. unfold returns, get_tagNameLower, read. rewrite H. reflexivity. Qed.

Lemma get_textContent_placed (h : handle) (n : node) :
  placed h n -> returns dom (get_textContent h) (textContent n).
Proof. intros H. unfold returns, get_textContent, read. rewrite H. reflexivity. Qed.

Lemma call_getAttribute_placed (h : handle) (n : node) (name : jsstring) :
  placed h n -> returns dom (call_getAttribute h name) (getAttribute n name).
Proof. intros H. unfold returns, call_getAttribute, read. rewrite H. reflexivity. Qed.

Lemma get_nodeType_placed (h : handle) (n : node) :
  placed h n ->
  returns dom (get_nodeType h)
    match n with
    | Text _ => TEXT_NODE
    | Element _ _ _ => ELEMENT_NODE
    | Comment _ => OTHER_NODE
    end.
Proof.
  intros H. unfold returns, get_nodeType, read. rewrite H. destruct n; reflexivity.
Qed.

Lemma get_childNodes_placed (h : handle) (n : node) :
  placed h n ->
  exists kids, returns dom (get_childNodes h) kids
               /\ Forall2 placed kids (childNodes n).
Proof.
  intros H. eexists. split; [reflexivity|]. cbv beta.
  apply Forall2_map_left. unfold placed. simpl.
  rewrite (childNodesAt_placed h n H). apply (seq_members node (childNodes n) []).
Qed.

Lemma get_children_placed (h : handle) (n : node) :
  placed h n ->
  exists kids, returns dom (get_children h) kids
               /\ Forall2 placed kids (children n).
Proof.
  intros H. eexists. split; [reflexivity|]. cbv beta.
  apply Forall2_map_left. unfold placed. simpl.
  rewrite (childNodesAt_placed h n H).
  apply (seq_members_filter node isElement (childNodes n) []).
Qed.

(** *** The elements below a node, as handles and as nodes *)

Lemma eachChild_targets (kids : list node) :
  Forall (fun kid => forall h, map target (descendantRefs h kid) = descendants kid)
    kids ->
  forall parent index,
    map target (eachChild descendantRefs parent index kids)
    = flat_map (fun kid => if isElement kid then kid :: descendants kid else []) kids.
Proof.
  induction 1 as [|kid rest Hkid _ IH]; intros parent index; simpl; [reflexivity|].
  rewrite map_app, IH. f_equal.
  destruct (isElement kid); [|reflexivity]. simpl. rewrite Hkid. reflexivity.
Qed.

Lemma descendantRefs_targets (n : node) (h : handle) :
  map target (descendantRefs h n) = descendants n.
Proof.
  revert h. induction n as [d|d|tag attrs kids IH] using node_nested_ind;
    intros h; try reflexivity.
  simpl. apply eachChild_targets. exact IH.
Qed.

Lemma eachChild_placed (kids : list node) :
  Forall (fun kid => forall h, placed h kid ->
                     forall r, In r (descendantRefs h kid) ->
                               placed (position r) (target r)) kids ->
  forall parent index,
    (forall j kid, nth_error kids j = Some kid -> placed ((index + j) :: parent) kid) ->
    forall r, In r (eachChild descendantRefs parent index kids) ->
              placed (position r) (target r).
Proof.
  induction 1 as [|kid rest Hkid _ IH]; intros parent index Hnth r; simpl;
    [contradiction|].
  intros Hr. apply in_app_or in Hr as [Hr|Hr].
  - assert (Hhere : placed (index :: parent) kid).
    { specialize (Hnth 0 kid eq_refl). rewrite Nat.add_0_r in Hnth. exact Hnth. }
    destruct (isElement kid); [|contradiction].
    destruct Hr as [<-|Hr]; [exact Hhere|].
    apply (Hkid (index :: parent) Hhere r Hr).
  - apply (IH parent (S index)); [|exact Hr].
    intros j k Hj. specialize (Hnth (S j) k Hj).
    rewrite Nat.add_succ_r in Hnth. exact Hnth.
Qed.

Lemma descendantRefs_placed (n : node) (h : handle) :
  placed h n ->
  forall r, In r (descendantRefs h n) -> placed (position r) (target r).
Proof.
  revert h. induction n as [d|d|tag attrs kids IH] using node_nested_ind;
    intros h Hn r; simpl; try contradiction.
  apply (eachChild_placed kids IH h 0).
  intros j kid Hj. unfold placed. simpl.
  rewrite (childNodesAt_placed h _ Hn). exact Hj.
Qed.

Lemma filtered_refs_placed (p : node -> bool) (refs : list elementRef) :
  (forall r, In r refs -> placed (position r) (target r)) ->
  Forall2 placed (map position (filter (fun r => p (target r)) refs))
    (filter p (map target refs)).
Proof.
  induction refs as [|r refs IH]; intros H; simpl; [constructor|].
  assert (Hrest : Forall2 placed
                    (map position (filter (fun r => p (target r)) refs))
                    (filter p (map target refs)))
    by (apply IH; intros x Hx; apply H; right; exact Hx).
  destruct (p (target r)); [|exact Hrest].
  simpl. constructor; [apply H; left; reflexivity | exact Hrest].
Qed.

Lemma found_ref_placed (p : node -> bool) (refs : list elementRef) :
  (forall r, In r refs -> placed (position r) (target r)) ->
  match option_map position (find (fun r => p (target r)) refs),
        find p (map target refs) with
  | Some h, Some n => placed h n
  | None, None => True
  | _, _ => False
  end.
Proof.
  induction refs as [|r refs IH]; intros H; simpl; [exact I|].
  destruct (p (target r)); simpl.
  - apply H. left. reflexivity.
  - apply IH. intros x Hx. apply H. right. exact Hx.
Qed.

Lemma call_querySelectorAll_placed (h : handle) (n : node) (sel : selector) :
  placed h n ->
  exists found, returns dom (call_querySelectorAll h sel) found
                /\ Forall2 placed found (querySelectorAll n sel).
Proof.
  intros H. eexists. split.
  - unfold returns, call_querySelectorAll, read. rewrite H. reflexivity.
  - unfold querySelectorAll. rewrite <- (descendantRefs_targets n h).
    apply filtered_refs_placed. apply descendantRefs_placed. exact H.
Qed.

Lemma call_querySelector_placed (h : handle) (n : node) (sel : selector) :
  placed h n ->
  exists found, returns dom (call_querySelector h sel) found
                /\ match found, querySelector n sel with
                   | Some h', Some n' => placed h' n'
                   | None, None => True
                   | _, _ => False
                   end.
Proof.
  intros H. eexists. split.
  - unfold returns, call_querySelector, read. rewrite H. reflexivity.
  - unfold querySelector. rewrite <- (descendantRefs_targets n h).
    apply found_ref_placed. apply descendantRefs_placed. exact H.
Qed.

(** *** The loops *)

Lemma forOf_placed (R : Type) (f : R -> handle -> DomM R) (g : R -> node -> R)
    (hs : list handle) (ns : list node) :
  Forall2 placed hs ns ->
  (forall acc h n, placed h n -> returns dom (f acc h) (g acc n)) ->
  forall acc, returns dom (forOf f hs acc) (fold_left g ns acc).
Proof.
  intros H Hf. induction H as [|h n hs ns Hhn _ IH]; intros acc; simpl.
  - apply returns_ret.
  - apply (returns_bind _ _ _ _ _ (g acc n)); [apply Hf; exact Hhn | apply IH].
Qed.

Lemma mapiFromM_placed (B : Type) (f : handle -> nat -> DomM B) (g : node -> nat -> B)
    (hs : list handle) (ns : list node) :
  Forall2 placed hs ns ->
  (forall h n index, placed h n -> returns dom (f h index) (g n index)) ->
  forall index, returns dom (mapiFromM f index hs) (mapiFrom g index ns).
Proof.
  intros H Hf. induction H as [|h n hs ns Hhn _ IH]; intros index; simpl.
  - apply returns_ret.
  - apply (returns_bind _ _ _ _ _ (g n index)); [apply Hf; exact Hhn|].
    apply (returns_bind _ _ _ _ _ (mapiFrom g (S index) ns)); [apply IH|].
    apply returns_ret.
Qed.

Lemma filterM_placed (p : handle -> DomM bool) (q : node -> bool)
    (hs : list handle) (ns : list node) :
  Forall2 placed hs ns ->
  (forall h n, placed h n -> returns dom (p h) (q n)) ->
  exists kept, returns dom (filterM p hs) kept /\ Forall2 placed kept (filter q ns).
Proof.
  intros H Hp. induction H as [|h n hs ns Hhn _ [kept [Hkept Hplaced]]]; simpl.
  - exists []. split; [apply returns_ret | constructor].
  - exists (if q n then h :: kept else kept). split.
    + apply (returns_bind _ _ _ _ _ (q n)); [apply Hp; exact Hhn|].
      apply (returns_bind _ _ _ _ _ kept); [exact Hkept | apply returns_ret].
    + destruct (q n); [constructor|]; assumption.
Qed.

Lemma forEachiFromM_placed (R : Type) (f : R -> handle -> nat -> DomM R)
    (g : R -> node -> nat -> R) (hs : list handle) (ns : list node) :
  Forall2 placed hs ns ->
  (forall acc h n index, placed h n -> returns dom (f acc h index) (g acc n index)) ->
  forall index acc,
    returns dom (forEachiFromM f index hs acc) (forEachiFrom g index ns acc).
Proof.
  intros H Hf. induction H as [|h n hs ns Hhn _ IH]; intros index acc; simpl.
  - apply returns_ret.
  - apply (returns_bind _ _ _ _ _ (g acc n index)); [apply Hf; exact Hhn | apply IH].
Qed.

End OnADocument.

Lemma mapiFrom_map (A B : Type) (f : A -> B) (l : list A) (index : nat) :
  mapiFrom (fun x _ => f x) index l = map f l.
Proof.
  revert index. induction l as [|x l IH]; intros index; simpl; [reflexivity|].
  rewrite IH. reflexivity.
Qed.

Lemma map_const_length (A B C : Type) (c : C) (l : list A) (l' : list B) :
  List.length l = List.length l' -> map (fun _ => c) l = map (fun _ => c) l'.
Proof.
  revert l'. induction l as [|x l IH]; intros [|y l'] H; simpl in *;
    try discriminate; [reflexivity|].
  rewrite (IH l') by lia. reflexivity.
Qed.

Section Methods.
Variable dom : document.
Variable pe : node -> jsstring.
Variable peM : handle -> DomM jsstring.
Hypothesis peM_agrees :
  forall h n, nodeAt dom h = Some n -> returns dom (peM h) (pe n).

Lemma processListItems_agrees (h : handle) (n : node) (prefix : option jsstring)
    (isOrdered : bool) :
  nodeAt dom h = Some n ->
  returns dom (processListItems_ peM h prefix isOrdered)
    (ConverterJs.processListItems_ pe n prefix isOrdered).
Proof.
  intros H. unfold processListItems_, ConverterJs.processListItems_.
  destruct (get_children_placed dom h n H) as [kids [Hkids Hplaced]].
  destruct (filterM_placed dom
              (fun child => tagName <- get_tagNameLower child ;;
                            ret (tagName === lit "li"))
              (fun child => tagNameLower child === lit "li")
              kids (children n) Hplaced) as [items [Hitems Hip]].
  { intros c k Hck. apply (returns_bind _ _ _ _ _ (tagNameLower k));
      [apply get_tagNameLower_placed; exact Hck | apply returns_ret]. }
  apply (returns_bind _ _ _ _ _ kids); [exact Hkids|].
  apply (returns_bind _ _ _ _ _ items); [exact Hitems|].
  eapply returns_bind; [|apply returns_ret].
  unfold mapiM, mapi.
  apply (mapiFromM_placed dom _ _
           (fun item index =>
              (if isOrdered then numberToString (index + 1) ++ lit ". "
               else ConverterJs.templateOf prefix) ++ trim (pe item))
           _ _ Hip).
  intros item k index Hk.
  apply (returns_bind _ _ _ _ _ (pe k)); [apply peM_agrees; exact Hk|].
  apply returns_ret.
Qed.

Lemma processTable_agrees (h : handle) (n : node) :
  nodeAt dom h = Some n ->
  returns dom (processTable_ peM h) (ConverterJs.processTable_ pe n).
Proof.
  intros H. unfold processTable_, ConverterJs.processTable_.
  destruct (call_querySelectorAll_placed dom h n (Tags [lit "tr"]) H)
    as [rows [Hrows Hrp]].
  apply (returns_bind _ _ _ _ _ rows); [exact Hrows|].
  rewrite (Forall2_length Hrp).
  destruct (List.length (querySelectorAll n (Tags [lit "tr"])) =? 0);
    [apply returns_ret|].
  eapply returns_bind; [|apply returns_ret].
  unfold forEachiM, forEachi. apply (forEachiFromM_placed dom _ _ _ _ _ Hrp).
  intros acc row k index Hk.
  destruct (call_querySelectorAll_placed dom row k (Tags [lit "td"; lit "th"]) Hk)
    as [cells [Hcells Hcp]].
  apply (returns_bind _ _ _ _ _ cells); [exact Hcells|].
  eapply returns_bind.
  { unfold mapiM.
    apply (mapiFromM_placed dom _ _
             (fun cell _ => replaceNewlines (trim (pe cell))) _ _ Hcp).
    intros c ck i Hc.
    apply (returns_bind _ _ _ _ _ (pe ck)); [apply peM_agrees; exact Hc|].
    apply returns_ret. }
  cbv zeta. rewrite mapiFrom_map.
  rewrite (map_const_length _ _ _ (lit "---") cells
             (querySelectorAll k (Tags [lit "td"; lit "th"]))
             (Forall2_length Hcp)).
  destruct (index =? 0); cbn [andb]; [|apply returns_ret].
  destruct (call_querySelector_placed dom row k (Tags [lit "th"]) Hk)
    as [th [Hth Hrel]].
  apply (returns_bind _ _ _ _ _ th); [exact Hth|].
  destruct th, (querySelector k (Tags [lit "th"])); try contradiction;
    apply returns_ret.
Qed.

Lemma convertElementToMarkdown_agrees (h : handle) (n : node) :
  nodeAt dom h = Some n ->
  returns dom (convertElementToMarkdown_ peM h)
    (ConverterJs.convertElementToMarkdown_ pe n).
Proof.
  intros H. unfold convertElementToMarkdown_, ConverterJs.convertElementToMarkdown_.
  apply (returns_bind _ _ _ _ _ (tagNameLower n));
    [apply get_tagNameLower_placed; exact H|].
  apply (returns_bind _ _ _ _ _ (textContent n));
    [apply get_textContent_placed; exact H|].
  cbv zeta.
  repeat match goal with
         | |- returns _ (if ?c then _ else _) _ => destruct c
         end;
    first
      [ apply returns_ret
      | apply peM_agrees; exact H
      | apply processTable_agrees; exact H
      | eapply returns_bind; [apply peM_agrees; exact H | apply returns_ret]
      | eapply returns_bind; [apply processListItems_agrees; exact H | apply returns_ret]
      | idtac ].
  - destruct (call_querySelector_placed dom h n (Tags [lit "code"]) H)
      as [found [Hfound Hrel]].
    apply (returns_bind _ _ _ _ _ found); [exact Hfound|].
    destruct found as [c|], (querySelector n (Tags [lit "code"])) as [cn|];
      try contradiction.
    + eapply returns_bind; [apply get_textContent_placed; exact Hrel|].
      apply returns_ret.
    + eapply returns_bind; apply returns_ret.
  - apply (returns_bind _ _ _ _ _ (getAttribute n (lit "href")));
      [apply call_getAttribute_placed; exact H|].
    destruct (getAttribute n (lit "href")); apply returns_ret.
  - apply (returns_bind _ _ _ _ _ (getAttribute n (lit "src")));
      [apply call_getAttribute_placed; exact H|].
    apply (returns_bind _ _ _ _ _ (getAttribute n (lit "alt")));
      [apply call_getAttribute_placed; exact H|].
    destruct (getAttribute n (lit "src")); apply returns_ret.
Qed.

Lemma appendNode_agrees (result : jsstring) (h : handle) (n : node) :
  nodeAt dom h = Some n ->
  returns dom (appendNode peM result h) (ConverterJs.appendNode pe result n).
Proof.
  intros H. unfold appendNode.
  eapply returns_bind; [apply get_nodeType_placed; exact H|].
  destruct n as [d|d|tag attrs kids].
  - eapply returns_bind; [apply get_textContent_placed; exact H|].
    apply returns_ret.
  - apply returns_ret.
  - eapply returns_bind; [apply convertElementToMarkdown_agrees; exact H|].
    apply returns_ret.
Qed.
End Methods.

Lemma processElementFuel_agrees (dom : document) (fuel : nat) (h : handle) (n : node) :
  nodeAt dom h = Some n ->
  returns dom (processElementFuel fuel h) (ConverterJs.processElementFuel fuel n).
Proof.
  revert h n. induction fuel as [|fuel IH]; intros h n H; simpl.
  - apply returns_ret.
  - destruct (get_childNodes_placed dom h n H) as [kids [Hkids Hplaced]].
    apply (returns_bind _ _ _ _ _ kids); [exact Hkids|].
    apply (forOf_placed dom _ _ _ _ _ Hplaced).
    intros acc k kn Hk. apply appendNode_agrees; [exact IH | exact Hk].
Qed.

(** Called on the place of a node, the stateful [processElement] returns the
    Markdown the emitter on trees computes for that node, and the document
    it was given. *)
Lemma processElement_agrees (dom : document) (h : handle) (n : node) :
  nodeAt dom h = Some n ->
  processElement h dom = (ConverterJs.processElement n, dom).
Proof.
  intros H. unfold processElement, fuelAt, ConverterJs.processElement. rewrite H.
  apply processElementFuel_agrees. exact H.
Qed.

Lemma convertElementToMarkdown_on_handles (dom : document) (h : handle) (n : node) :
  nodeAt dom h = Some n ->
  convertElementToMarkdown h dom = (ConverterJs.convertElementToMarkdown n, dom).
Proof.
  intros H. apply convertElementToMarkdown_agrees; [|exact H].
  intros h' n' H'. apply processElement_agrees. exact H'.
Qed.

End StateSimulation.

(** ** The emitter on small trees *)
Module EmitterExamples.
Import JsString Dom ConverterJs.

(** [<p>Hello <b>world</b></p>]. *)
Example paragraph_with_bold :
  processElement
    (Element (lit "body") []
       [Element (lit "p") [] [Text (lit "Hello "); Element (lit "b") [] [Text (lit "world")]]])
  = nl ++ lit "Hello **world**" ++ nl ++ nl.
Proof. reflexivity. Qed.

(** A heading of level 3 and a text node of white space only. *)
Example heading_and_blank_text :
  processElement
    (Element (lit "body") []
       [Text (lit "   "); Element (lit "h3") [] [Text (lit " Title ")]])
  = nl ++ lit "### Title" ++ nl ++ nl.
Proof. reflexivity. Qed.

(** [<ul><li>a</li><li></li><li><img src="x.png"></li></ul>]: a line for each
    item; the item that holds only an image has no text of its own and is
    rendered through its image. *)
Example lines_of_sparse_list :
  convertElementToMarkdown Examples.sparseList
  = nl ++ lit "- a" ++ nl ++ lit "- " ++ nl ++ lit "- ![](x.png)" ++ nl.
Proof. reflexivity. Qed.

(** A table with a header row: the separator has a pipe-delimited [---] for
    each cell. *)
Example table_with_header :
  processTable
    (Element (lit "table") []
       [Element (lit "tr") []
          [Element (lit "th") [] [Text (lit "A")]; Element (lit "th") [] [Text (lit "B")]];
        Element (lit "tr") []
          [Element (lit "td") [] [Text (lit "1")]; Element (lit "td") [] [Text (lit "2")]]])
  = nl ++ lit "| A | B |" ++ nl ++ lit "| --- | --- |" ++ nl ++ lit "| 1 | 2 |" ++ nl ++ nl.
Proof. reflexivity. Qed.

(** An [a] without [href] gives its text alone. *)
Example anchor_without_href :
  convertElementToMarkdown (Element (lit "a") [] [Text (lit " here ")]) = lit "here".
Proof. reflexivity. Qed.

(** The emitter on handles, run on a page, returns the same Markdown and the
    page. *)
Example stateful_emitter_on_page :
  ConverterJsState.processElement [0] Examples.nested
  = (processElement
       (Element (lit "html") []
          [Element (lit "head") [] [];
           Element (lit "body") []
             [Element (lit "div") []
                [Element (lit "p") [] [Text Part001.startMarker]]]]),
     Examples.nested).
Proof. reflexivity. Qed.

End EmitterExamples.

(** ** More on strings: [includes] and [trim] *)
Module StringProps.
Import JsString JsStringFacts.

Lemma startsWith_iff (s prefix : jsstring) :
  startsWith s prefix = true <-> exists rest, s = prefix ++ rest.
Proof.
  revert s. induction prefix as [|p prefix IH]; intros s; simpl.
  - split; [intros _; exists s; reflexivity | intros _; destruct s; reflexivity].
  - destruct s as [|c s]; simpl.
    + split; [discriminate | intros [rest H]; discriminate].
    + split.
      * intros H. apply andb_prop in H as [Hc Hs]. apply N.eqb_eq in Hc.
        apply IH in Hs as [rest ->]. exists rest. subst c. reflexivity.
      * intros [rest H]. injection H as -> ->. rewrite N.eqb_refl. simpl.
        apply IH. exists rest. reflexivity.
Qed.

(** [s.includes(sub)] holds exactly when [sub] is a contiguous part of [s]. *)
Lemma includes_iff (s sub : jsstring) :
  includes s sub = true <-> exists before after, s = before ++ sub ++ after.
Proof.
  split.
  - induction s as [|c s IH]; cbn [includes].
    + intros H. apply startsWith_iff in H as [rest H].
      exists [], rest. exact H.
    + intros H. apply orb_prop in H as [H|H].
      * apply startsWith_iff in H as [rest H]. exists [], rest. exact H.
      * destruct (IH H) as [before [after ->]]. exists (c :: before), after.
        reflexivity.
  - intros [before [after ->]]. induction before as [|c before IH].
    + cbn [app].
      assert (H : startsWith (sub ++ after) sub = true)
        by (apply startsWith_iff; exists after; reflexivity).
      destruct (sub ++ after) as [|c rest]; cbn [includes]; [exact H|].
      rewrite H. reflexivity.
    + cbn [app includes]. rewrite IH. apply orb_true_r.
Qed.

Lemma includes_app (before s after sub : jsstring) :
  includes s sub = true -> includes (before ++ s ++ after) sub = true.
Proof.
  intros H. apply includes_iff in H as [b [a ->]]. apply includes_iff.
  exists (before ++ b), (a ++ after). rewrite <- !app_assoc. reflexivity.
Qed.

Lemma includes_nonempty (s sub : jsstring) :
  includes s sub = true -> sub <> [] -> truthy s = true.
Proof.
  intros H Hsub. apply includes_iff in H as [b [a ->]].
  destruct b; simpl; [|reflexivity]. destruct sub; [contradiction | reflexivity].
Qed.

(** A string that holds a part with a character [trim] keeps is not trimmed
    to nothing. *)
Lemma includes_trim (s sub : jsstring) :
  includes s sub = true -> forallb isWhiteSpace sub = false -> trim s <> [].
Proof.
  intros H Hsub E. apply trim_nil in E. apply includes_iff in H as [b [a ->]].
  rewrite !forallb_app, Hsub in E. rewrite andb_false_r in E. discriminate.
Qed.

Lemma trimStart_suffix (s : jsstring) : exists blank, s = blank ++ trimStart s.
Proof.
  induction s as [|c s [blank IH]]; simpl.
  - exists []. reflexivity.
  - destruct (isWhiteSpace c).
    + exists (c :: blank). simpl. rewrite <- IH. reflexivity.
    + exists []. reflexivity.
Qed.

Lemma trimStart_fixed (s : jsstring) :
  trimStart s = s <-> match s with
                      | [] => True
                      | c :: _ => isWhiteSpace c = false
                      end.
Proof.
  destruct s as [|c s]; simpl; [tauto|].
  destruct (isWhiteSpace c) eqn:E; split; try congruence; try discriminate.
  intros H. destruct (trimStart_suffix s) as [blank Hb].
  apply (f_equal (@List.length N)) in H. apply (f_equal (@List.length N)) in Hb.
  rewrite length_app in Hb. simpl in H. lia.
Qed.

Lemma trimStart_idem (s : jsstring) : trimStart (trimStart s) = trimStart s.
Proof.
  induction s as [|c s IH]; simpl; [reflexivity|].
  destruct (isWhiteSpace c) eqn:E; [exact IH|]. simpl. rewrite E. reflexivity.
Qed.

Lemma trimEnd_idem (s : jsstring) : trimEnd (trimEnd s) = trimEnd s.
Proof. unfold trimEnd. rewrite rev_involutive, trimStart_idem. reflexivity. Qed.

(** [trimStart] leaves a string alone at its end. *)
Lemma trimEnd_trimStart (s : jsstring) :
  trimEnd s = s -> trimEnd (trimStart s) = trimStart s.
Proof.
  unfold trimEnd. intros H.
  assert (Hrev : trimStart (rev s) = rev s).
  { apply (f_equal (@rev N)) in H. rewrite rev_involutive in H. exact H. }
  assert (Goal : trimStart (rev (trimStart s)) = rev (trimStart s)).
  { destruct (trimStart_suffix s) as [blank Hb].
    destruct (rev (trimStart s)) as [|c r] eqn:E; [reflexivity|].
    apply trimStart_fixed.
    assert (Hs : rev s = (c :: r) ++ rev blank).
    { rewrite Hb at 1. rewrite rev_app_distr, E. reflexivity. }
    rewrite Hs in Hrev. simpl in Hrev.
    apply (proj1 (trimStart_fixed (c :: r ++ rev blank))) in Hrev. exact Hrev. }
  rewrite Goal. apply rev_involutive.
Qed.

Lemma trim_idem (s : jsstring) : trim (trim s) = trim s.
Proof.
  unfold trim at 1.
  assert (H : trimEnd (trim s) = trim s).
  { unfold trim. apply trimEnd_trimStart. apply trimEnd_idem. }
  rewrite H. unfold trim. apply trimStart_idem.
Qed.

End StringProps.

(** ** More on the range extractor *)
Module ExtractorProps.
Import JsString Dom JsStringFacts DomFacts Part001 ExtractorFacts StringProps.

(** *** The list of [querySelectorAll] around one element *)

Lemma eachChild_split (below : handle -> node -> list elementRef)
    (kids : list node) (parent : handle) (index j : nat) (n : node) :
  nth_error kids j = Some n -> isElement n = true ->
  eachChild below parent index kids
  = eachChild below parent index (firstn j kids)
    ++ ElementRef ((index + j) :: parent) n :: below ((index + j) :: parent) n
    ++ eachChild below parent (index + S j) (skipn (S j) kids).
Proof.
  revert index j. induction kids as [|kid rest IH]; intros index j Hn Hel.
  - destruct j; discriminate.
  - destruct j as [|j]; simpl in Hn.
    + injection Hn as ->. cbn [firstn skipn eachChild app]. rewrite Hel.
      rewrite Nat.add_0_r, Nat.add_1_r. reflexivity.
    + cbn [firstn skipn eachChild]. rewrite (IH (S index) j Hn Hel).
      rewrite <- app_assoc. replace (S index + j) with (index + S j) by lia.
      replace (S index + S j) with (index + S (S j)) by lia. reflexivity.
Qed.

Lemma eachChild_head (below : handle -> node -> list elementRef)
    (kids : list node) (parent : handle) (index : nat) :
  hd_error (eachChild below parent index kids)
  = match firstElementFrom index kids with
    | Some (next, n) => Some (ElementRef (next :: parent) n)
    | None => None
    end.
Proof.
  revert index. induction kids as [|kid rest IH]; intros index; simpl; [reflexivity|].
  destruct (isElement kid); [reflexivity|]. apply IH.
Qed.

Lemma nextElementSibling_head (below : handle -> node -> list elementRef)
    (doc : document) (parent : handle) (j : nat) :
  nextElementSibling doc (j :: parent)
  = hd_error (eachChild below parent (S j) (skipn (S j) (childNodesAt doc parent))).
Proof.
  rewrite eachChild_head. unfold nextElementSibling.
  destruct (firstElementFrom (S j) (skipn (S j) (childNodesAt doc parent)))
    as [[next n]|]; reflexivity.
Qed.

Lemma hd_error_app_some (A : Type) (l l' : list A) (x : A) :
  hd_error l = Some x -> hd_error (l ++ l') = Some x.
Proof. destruct l; simpl; [discriminate | tauto]. Qed.

Lemma hd_error_none (A : Type) (l : list A) : hd_error l = None -> l = [].
Proof. destruct l; simpl; [reflexivity | discriminate]. Qed.

(** In [querySelectorAll('*')] an element is followed by the elements below
    it, and what comes right after those is what [getNextElement] returns
    for it ([null] when nothing comes after). *)
Lemma allElements_around (doc : document) (h : handle) (n : node) :
  nodeAt doc h = Some n -> isElement n = true ->
  exists before after,
    allElements doc
    = before ++ ElementRef h n :: descendantRefs h n ++ after
    /\ hd_error after = getNextElement doc (ElementRef h n).
Proof.
  revert n. induction h as [|j parent IH]; intros n Hn Hel; [discriminate|].
  cbn [nodeAt] in Hn. unfold getNextElement. cbn [position parentElement tl].
  rewrite (nextElementSibling_head descendantRefs).
  destruct parent as [|i up].
  - cbn [childNodesAt] in *. unfold allElements.
    rewrite (eachChild_split descendantRefs _ [] 0 j n Hn Hel). cbn [Nat.add].
    eexists. eexists. split; [reflexivity|].
    destruct (hd_error (eachChild descendantRefs [] (S j)
                          (skipn (S j) (documentChildNodes doc)))); reflexivity.
  - assert (Hp : exists pn, nodeAt doc (i :: up) = Some pn
                            /\ childNodesAt doc (i :: up) = childNodes pn).
    { cbn [nodeAt childNodesAt] in *.
      destruct (nth_error (childNodesAt doc up) i) as [pn|].
      - exists pn. split; reflexivity.
      - destruct j; discriminate. }
    destruct Hp as [pn [Hpn Hkids]]. rewrite Hkids in *.
    assert (Hpel : isElement pn = true).
    { destruct pn; try reflexivity; destruct j; discriminate. }
    destruct (IH pn Hpn Hpel) as [before [after [Hall Hnext]]].
    assert (Hdesc : descendantRefs (i :: up) pn
                    = eachChild descendantRefs (i :: up) 0 (childNodes pn))
      by (destruct pn; try discriminate; reflexivity).
    rewrite Hdesc, (eachChild_split descendantRefs _ (i :: up) 0 j n Hn Hel) in Hall.
    cbn [Nat.add] in Hall.
    exists (before ++ ElementRef (i :: up) pn
              :: eachChild descendantRefs (i :: up) 0 (firstn j (childNodes pn))),
      (eachChild descendantRefs (i :: up) (S j) (skipn (S j) (childNodes pn)) ++ after).
    split.
    + rewrite Hall. rewrite <- !app_assoc. cbn [app]. rewrite <- !app_assoc.
      reflexivity.
    + destruct (hd_error (eachChild descendantRefs (i :: up) (S j)
                            (skipn (S j) (childNodes pn)))) as [r|] eqn:E.
      * apply hd_error_app_some. exact E.
      * apply hd_error_none in E. rewrite E. cbn [app]. rewrite Hnext.
        unfold getNextElement. cbn [position parentElement tl ancestorLoop].
        reflexivity.
Qed.

Lemma allElements_placed (doc : document) (r : elementRef) :
  In r (allElements doc) -> nodeAt doc (position r) = Some (target r).
Proof.
  apply (StateSimulation.eachChild_placed doc (documentChildNodes doc)).
  - apply Forall_forall. intros kid _ h Hh r' Hr'.
    apply (StateSimulation.descendantRefs_placed doc kid h Hh r' Hr').
  - intros j kid Hj. exact Hj.
Qed.

(** X1: [getNextElement] returns the element that follows the whole subtree
    of the given element in document order: in [querySelectorAll('*')] the
    element is followed by its descendants, and the element right after them
    is the one returned; [null] is returned exactly when nothing comes after
    them. *)
Theorem X1_getNextElement_follows_subtree (doc : document) (element : elementRef) :
  In element (allElements doc) ->
  exists before after,
    allElements doc
    = before ++ element :: descendantRefs (position element) (target element) ++ after
    /\ getNextElement doc element = hd_error after.
Proof.
  intros H. destruct element as [h n].
  destruct (allElements_around doc h n (allElements_placed doc _ H)
              (allElements_isElement doc _ H)) as [before [after [Hall Hnext]]].
  exists before, after. split; [exact Hall | symmetry; exact Hnext].
Qed.

Lemma X1_getNextElement_follows_subtree_witness :
  exists before after,
    allElements Examples.nested
    = before ++ ElementRef [0; 0] (Element (lit "head") [] [])
        :: descendantRefs [0; 0] (Element (lit "head") [] []) ++ after
    /\ getNextElement Examples.nested (ElementRef [0; 0] (Element (lit "head") [] []))
       = hd_error after.
Proof.
  apply (X1_getNextElement_follows_subtree Examples.nested
           (ElementRef [0; 0] (Element (lit "head") [] []))).
  simpl. tauto.
Defined.

(** *** The second loop *)

Lemma findEnd_after_first (after : list elementRef) (s e : elementRef) :
  (forall y, In y after -> sameElement y s = false) ->
  findEnd after s true = Some e ->
  exists between rest,
    after = between ++ e :: rest
    /\ hasEndMarker e = true
    /\ (forall x, In x between -> hasEndMarker x = false).
Proof.
  induction after as [|x after IH]; intros Hs; simpl; [discriminate|].
  rewrite (Hs x (or_introl eq_refl)).
  assert (Hs' : forall y, In y after -> sameElement y s = false)
    by (intros y Hy; apply Hs; right; exact Hy).
  destruct (hasEndMarker x) eqn:E.
  - intros H. injection H as <-. exists [], after. repeat split; [exact E|].
    contradiction.
  - intros H. destruct (IH Hs' H) as [between [rest [-> [He Hb]]]].
    exists (x :: between), rest. repeat split; [exact He|].
    intros y [<-|Hy]; [exact E | apply Hb; exact Hy].
Qed.

(** X2: the second loop of [extractSpecificSection] selects the first element
    after the start element in [querySelectorAll('*')] whose text has one of
    the end markers; it never selects the start element or an element
    before it, whatever their text. *)
Theorem X2_end_is_first_after_start (doc : document) (startElement endElement : elementRef) :
  In startElement (allElements doc) ->
  findEnd (allElements doc) startElement false = Some endElement ->
  exists before between rest,
    allElements doc = before ++ startElement :: between ++ endElement :: rest
    /\ hasEndMarker endElement = true
    /\ (forall x, In x between -> hasEndMarker x = false)
    /\ position endElement <> position startElement.
Proof.
  intros Hin Hend. apply in_split in Hin as [before [after Hall]].
  pose proof (allElements_parentsFirst doc) as Hord. rewrite Hall in Hord.
  apply parentsFirst_distinct in Hord as [Hb Ha].
  rewrite Hall, (findEnd_skips_before before after startElement Hb) in Hend.
  destruct (findEnd_after_first after startElement endElement Ha Hend)
    as [between [rest [-> [He Hbetween]]]].
  exists before, between, rest. repeat split; try assumption.
  apply sameElement_false. apply Ha. apply in_or_app. right. left. reflexivity.
Qed.

Lemma X2_end_is_first_after_start_witness :
  exists before between rest,
    allElements Examples.noticePage
    = before ++ ElementRef [0]
                  (Element (lit "html") []
                     [Element (lit "head") [] [];
                      Element (lit "body") [] [Text warning]])
        :: between ++ ElementRef [1; 0] (Element (lit "body") [] [Text warning]) :: rest
    /\ hasEndMarker (ElementRef [1; 0] (Element (lit "body") [] [Text warning])) = true
    /\ (forall x, In x between -> hasEndMarker x = false)
    /\ position (ElementRef [1; 0] (Element (lit "body") [] [Text warning]))
       <> position (ElementRef [0]
                      (Element (lit "html") []
                         [Element (lit "head") [] [];
                          Element (lit "body") [] [Text warning]])).
Proof.
  apply (X2_end_is_first_after_start Examples.noticePage).
  - simpl. tauto.
  - reflexivity.
Defined.

(** *** The marker of a descendant is a marker of its ancestors *)

Lemma textContent_of_child (tag : jsstring) (attrs : list (jsstring * jsstring))
    (kids : list node) (kid : node) :
  In kid kids -> isElement kid = true ->
  exists before after,
    textContent (Element tag attrs kids) = before ++ textContent kid ++ after.
Proof.
  intros Hin Hel. apply in_split in Hin as [l1 [l2 ->]].
  cbn [textContent]. rewrite flat_map_app. cbn [flat_map].
  eexists. eexists. destruct kid; try discriminate. reflexivity.
Qed.

Lemma eachChild_in (below : handle -> node -> list elementRef) (kids : list node)
    (parent : handle) (index : nat) (r : elementRef) :
  In r (eachChild below parent index kids) ->
  exists kid j,
    In kid kids /\ isElement kid = true
    /\ (r = ElementRef (j :: parent) kid \/ In r (below (j :: parent) kid)).
Proof.
  revert index. induction kids as [|kid rest IH]; intros index; simpl; [contradiction|].
  intros H. apply in_app_or in H as [H|H].
  - destruct (isElement kid) eqn:E; [|contradiction].
    exists kid, index. split; [left; reflexivity|]. split; [exact E|].
    destruct H as [<-|H]; [left; reflexivity | right; exact H].
  - destruct (IH _ H) as [k [j [Hk [Hel Hr]]]]. exists k, j.
    split; [right; exact Hk | split; assumption].
Qed.

Lemma marker_rises (marker : jsstring) (n : node) (h : handle) (r : elementRef) :
  In r (descendantRefs h n) ->
  includes (textContent (target r)) marker = true ->
  includes (textContent n) marker = true.
Proof.
  revert h r. induction n as [d|d|tag attrs kids IH] using node_nested_ind;
    intros h r; try contradiction.
  cbn [descendantRefs]. intros Hr Hm.
  apply eachChild_in in Hr as [kid [j [Hkid [Hel Hr]]]].
  assert (Hk : includes (textContent kid) marker = true).
  { destruct Hr as [->|Hr]; [exact Hm|].
    rewrite Forall_forall in IH. apply (IH kid Hkid (j :: h) r Hr Hm). }
  destruct (textContent_of_child tag attrs kids kid Hkid Hel) as [b [a ->]].
  apply includes_app. exact Hk.
Qed.

Lemma hasStartMarker_includes (r : elementRef) :
  hasStartMarker r = includes (textContent (target r)) startMarker.
Proof.
  unfold hasStartMarker. cbv zeta.
  destruct (includes (textContent (target r)) startMarker) eqn:E.
  - rewrite (includes_nonempty _ _ E); [reflexivity | discriminate].
  - apply andb_false_r.
Qed.

Lemma findStart_app (l1 l2 : list elementRef) :
  findStart (l1 ++ l2)
  = match findStart l1 with
    | Some s => Some s
    | None => findStart l2
    end.
Proof.
  induction l1 as [|x l1 IH]; simpl; [reflexivity|].
  destruct (hasStartMarker x); [reflexivity | exact IH].
Qed.

Lemma findStart_eachChild (kids : list node) (parent : handle) (index : nat)
    (s : elementRef) :
  findStart (eachChild descendantRefs parent index kids) = Some s ->
  exists j, position s = j :: parent.
Proof.
  revert index. induction kids as [|kid rest IH]; intros index; simpl; [discriminate|].
  rewrite findStart_app.
  destruct (isElement kid); [|apply IH].
  cbn [findStart].
  destruct (hasStartMarker (ElementRef (index :: parent) kid)) eqn:E.
  - intros H. injection H as <-. exists index. reflexivity.
  - assert (Hnone : findStart (descendantRefs (index :: parent) kid) = None).
    { apply findStart_none. intros r Hr.
      destruct (hasStartMarker r) eqn:Er; [|reflexivity].
      rewrite hasStartMarker_includes in Er, E. cbn [target] in E.
      rewrite (marker_rises startMarker kid _ r Hr Er) in E. discriminate. }
    rewrite Hnone. apply IH.
Qed.

(** X3: the start element is always a child of the document itself (the
    root element): the text of an element is part of the text of each of its
    ancestors, so as soon as any element has the start marker the outermost
    one has it and is the first in the list. *)
Theorem X3_start_is_root (doc : document) (startElement : elementRef) :
  findStart (allElements doc) = Some startElement ->
  exists j,
    position startElement = [j]
    /\ nth_error (documentChildNodes doc) j = Some (target startElement)
    /\ isElement (target startElement) = true.
Proof.
  intros H. destruct (findStart_eachChild _ _ _ _ H) as [j Hj]. exists j.
  destruct (findStart_first _ _ H) as [before [after [Hall _]]].
  assert (Hin : In startElement (allElements doc))
    by (rewrite Hall; apply in_or_app; right; left; reflexivity).
  pose proof (allElements_placed doc _ Hin) as Hplaced. rewrite Hj in Hplaced.
  split; [exact Hj|]. split; [exact Hplaced|].
  apply (allElements_isElement doc). exact Hin.
Qed.

Lemma X3_start_is_root_witness :
  exists j,
    position (ElementRef [0]
                (Element (lit "html") []
                   [Element (lit "head") [] [];
                    Element (lit "body") []
                      [Element (lit "div") []
                         [Element (lit "p") [] [Text startMarker]]]]))
    = [j]
    /\ nth_error (documentChildNodes Examples.nested) j
       = Some (target
                 (ElementRef [0]
                    (Element (lit "html") []
                       [Element (lit "head") [] [];
                        Element (lit "body") []
                          [Element (lit "div") []
                             [Element (lit "p") [] [Text startMarker]]]])))
    /\ isElement
         (target
            (ElementRef [0]
               (Element (lit "html") []
                  [Element (lit "head") [] [];
                   Element (lit "body") []
                     [Element (lit "div") []
                        [Element (lit "p") [] [Text startMarker]]]])))
       = true.
Proof.
  apply (X3_start_is_root Examples.nested). reflexivity.
Defined.

(** *** A found range on a document with one root element *)

Lemma firstElementFrom_none (nodes : list node) (index : nat) :
  filter isElement nodes = [] -> firstElementFrom index nodes = None.
Proof.
  revert index. induction nodes as [|n nodes IH]; intros index; simpl; [reflexivity|].
  destruct (isElement n); [discriminate | apply IH].
Qed.

Lemma only_element (kids : list node) (root n : node) (j : nat) :
  filter isElement kids = [root] ->
  nth_error kids j = Some n -> isElement n = true ->
  n = root /\ filter isElement (skipn (S j) kids) = [].
Proof.
  intros Hone Hn Hel. apply firstn_skipn_middle in Hn.
  rewrite <- Hn, filter_app in Hone. cbn [filter] in Hone. rewrite Hel in Hone.
  destruct (filter isElement (firstn j kids)) as [|x l].
  - injection Hone as -> H. tauto.
  - injection Hone as _ H. destruct l; discriminate.
Qed.

Lemma convertElementToMarkdown_copies (n : node) :
  Part001.convertElementToMarkdown n = ConverterJs.convertElementToMarkdown n.
Proof.
  unfold Part001.convertElementToMarkdown, ConverterJs.convertElementToMarkdown.
  rewrite EmitterCopies.convertElementToMarkdown_same.
  apply EmitterFacts.convertElementToMarkdown_ext.
  intros m _. apply EmitterCopies.processElement_same.
Qed.

(** What the emitter makes of a container with a single element. *)
Lemma processElement_container (root : node) :
  isElement root = true ->
  processElement (Element (lit "div") [] [root]) = convertElementToMarkdown root.
Proof.
  intros Hel. rewrite EmitterCopies.processElement_same, convertElementToMarkdown_copies.
  rewrite EmitterFacts.processElement_unfold.
  destruct root; try discriminate. reflexivity.
Qed.

Lemma html_is_transparent (root : node) :
  tagNameLower root = lit "html" -> trim (textContent root) <> [] ->
  convertElementToMarkdown root = processElement root.
Proof.
  intros Htag Htext. unfold convertElementToMarkdown, convertElementToMarkdown_.
  cbv zeta. rewrite Htag.
  destruct (trim (textContent root)); [contradiction | reflexivity].
Qed.

(** X4: on a document with a single root element, as the HTML parser builds
    them, a range that is found is the whole document: the start element is
    the root, nothing follows it, and the container holds the copy of the
    root and nothing else.  The scoped conversion then returns the rendering
    of the entire page, its head included. *)
Theorem X4_found_range_is_whole_document
    (parseFromString : jsstring -> option document) (html : jsstring)
    (raw : document) (root : node) (startElement endElement : elementRef) :
  parseFromString html = Some raw ->
  filter isElement (documentChildNodes (removeUnwantedElements raw)) = [root] ->
  findStart (allElements (removeUnwantedElements raw)) = Some startElement ->
  findEnd (allElements (removeUnwantedElements raw)) startElement false
  = Some endElement ->
  target startElement = root
  /\ extractSpecificSection (removeUnwantedElements raw)
     = Ran (Some (Element (lit "div") [] [root]))
  /\ convertHtmlToMarkdown parseFromString html
     = Ran (Return (trim (convertElementToMarkdown root)))
  /\ (tagNameLower root = lit "html" ->
      convertHtmlToMarkdown parseFromString html
      = Ran (Return (trim (processElement root)))).
Proof.
  intros Hparse Hone Hstart Hend.
  destruct (findStart_eachChild _ _ _ _ Hstart) as [j Hj].
  destruct (findStart_first _ _ Hstart) as [before [after [Hall [Hmark _]]]].
  assert (Hin : In startElement (allElements (removeUnwantedElements raw)))
    by (rewrite Hall; apply in_or_app; right; left; reflexivity).
  pose proof (allElements_placed _ _ Hin) as Hplaced. rewrite Hj in Hplaced.
  cbn [nodeAt childNodesAt] in Hplaced.
  pose proof (allElements_isElement _ _ Hin) as Hel.
  destruct (only_element _ root _ j Hone Hplaced Hel) as [Hroot Hrest].
  assert (Hextract : extractSpecificSection (removeUnwantedElements raw)
                     = Ran (Some (Element (lit "div") [] [root]))).
  { unfold extractSpecificSection. rewrite Hstart, Hend.
    unfold extractElementsRange, getNextElement. rewrite Hj.
    unfold nextElementSibling. cbn [childNodesAt].
    rewrite (firstElementFrom_none _ (S j) Hrest).
    cbn [parentElement tl ancestorLoop collectLoop].
    unfold containerOf, children. cbn [childNodes filter].
    rewrite cloneNode_id, Hroot. rewrite Hroot in Hel. rewrite Hel. reflexivity. }
  assert (Hconvert : convertHtmlToMarkdown parseFromString html
                     = Ran (Return (trim (convertElementToMarkdown root)))).
  { unfold convertHtmlToMarkdown. rewrite Hparse, Hextract.
    unfold convertExtracted. rewrite processElement_container; [reflexivity|].
    rewrite <- Hroot. exact Hel. }
  split; [exact Hroot|]. split; [exact Hextract|]. split; [exact Hconvert|].
  intros Htag. rewrite Hconvert, html_is_transparent; [reflexivity | exact Htag |].
  rewrite hasStartMarker_includes, Hroot in Hmark.
  apply (includes_trim _ startMarker Hmark). reflexivity.
Qed.

Lemma X4_found_range_is_whole_document_witness :
  convertHtmlToMarkdown (fun _ => Some Examples.noticePage) []
  = Ran (Return (trim (processElement
                         (Element (lit "html") []
                            [Element (lit "head") [] [];
                             Element (lit "body") [] [Text warning]])))).
Proof.
  refine (proj2 (proj2 (proj2
            (X4_found_range_is_whole_document (fun _ => Some Examples.noticePage) []
               Examples.noticePage
               (Element (lit "html") []
                  [Element (lit "head") [] [];
                   Element (lit "body") [] [Text warning]])
               (ElementRef [0]
                  (Element (lit "html") []
                     [Element (lit "head") [] [];
                      Element (lit "body") [] [Text warning]]))
               (ElementRef [1; 0] (Element (lit "body") [] [Text warning]))
               eq_refl eq_refl eq_refl eq_refl))) eq_refl).
Defined.

(** *** Where the walk of [extractElementsRange] goes *)

Lemma nextElementSibling_position (doc : document) (h : handle) (r : elementRef) :
  nextElementSibling doc h = Some r ->
  exists i t k, h = i :: t /\ position r = k :: t /\ i < k.
Proof.
  destruct h as [|i t]; unfold nextElementSibling; [discriminate|].
  destruct (firstElementFrom (S i) (skipn (S i) (childNodesAt doc t)))
    as [[k n]|] eqn:E; [|discriminate].
  intros H. injection H as <-. apply firstElementFrom_spec in E.
  exists i, t, k. repeat split. lia.
Qed.

Lemma ancestorLoop_position (doc : document) (parent : handle) (r : elementRef) :
  ancestorLoop doc parent = Some r ->
  exists front i t k, parent = front ++ i :: t /\ position r = k :: t /\ i < k.
Proof.
  induction parent as [|j up IH]; [discriminate|]. cbn [ancestorLoop].
  destruct (nextElementSibling doc (j :: up)) as [next|] eqn:E.
  - intros H. injection H as <-.
    apply nextElementSibling_position in E as [i [t [k [Hh [Hr Hlt]]]]].
    exists [], i, t, k. repeat split; assumption.
  - intros H. destruct (IH H) as [front [i [t [k [Hup [Hr Hlt]]]]]].
    exists (j :: front), i, t, k. rewrite Hup. repeat split; assumption.
Qed.

(** [getNextElement] climbs zero or more levels and then moves to a later
    sibling there. *)
Lemma getNextElement_position (doc : document) (element r : elementRef) :
  getNextElement doc element = Some r ->
  exists front i t k,
    position element = front ++ i :: t /\ position r = k :: t /\ i < k.
Proof.
  unfold getNextElement.
  destruct (nextElementSibling doc (position element)) as [next|] eqn:E.
  - intros H. injection H as <-.
    apply nextElementSibling_position in E as [i [t [k [Hh [Hr Hlt]]]]].
    exists [], i, t, k. repeat split; assumption.
  - intros H. apply ancestorLoop_position in H as [front [i [t [k [Hup [Hr Hlt]]]]]].
    destruct (position element) as [|j up]; [destruct front; discriminate|].
    cbn [parentElement tl] in Hup.
    exists (j :: front), i, t, k. rewrite Hup. repeat split; assumption.
Qed.

Lemma right_of_start_step (doc : document) (s r r' : elementRef) :
  (exists front i t k, position s = front ++ i :: t /\ position r = k :: t /\ i < k) ->
  getNextElement doc r = Some r' ->
  exists front i t k, position s = front ++ i :: t /\ position r' = k :: t /\ i < k.
Proof.
  intros [front [i [t [k [Hs [Hr Hlt]]]]]] Hnext.
  apply getNextElement_position in Hnext as [front' [i' [t' [k' [Hr' [Hpos Hlt']]]]]].
  rewrite Hr in Hr'. destruct front' as [|x front'].
  - injection Hr' as -> ->. exists front, i, t', k'. repeat split; try assumption. lia.
  - injection Hr' as -> ->.
    exists (front ++ i :: front'), i', t', k'. rewrite Hs, <- app_assoc.
    repeat split; assumption.
Qed.

Lemma right_of_start_outside (s r e : elementRef) :
  (exists front i t k, position s = front ++ i :: t /\ position r = k :: t /\ i < k) ->
  (exists deeper, position e = deeper ++ position s) ->
  sameElement r e = false.
Proof.
  intros [front [i [t [k [Hs [Hr Hlt]]]]]] [deeper He].
  apply sameElement_false. rewrite Hr, He, Hs. intros E.
  assert (L : List.length (k :: t) = List.length (deeper ++ front ++ i :: t))
    by (rewrite <- E; reflexivity).
  rewrite !length_app in L. cbn [List.length] in L.
  destruct deeper as [|x deeper]; [|cbn [List.length] in L; lia].
  destruct front as [|y front]; [|cbn [List.length] in L; lia].
  cbn [app] in E. injection E as E. lia.
Qed.

Lemma collectLoop_ignores_inner_end (doc : document) (s e e' : elementRef)
    (fuel : nat) :
  (exists deeper, position e = deeper ++ position s) ->
  (exists deeper, position e' = deeper ++ position s) ->
  forall nextElement elementsToInclude,
    match nextElement with
    | Some r => exists front i t k,
                  position s = front ++ i :: t /\ position r = k :: t /\ i < k
    | None => True
    end ->
    collectLoop fuel doc nextElement e elementsToInclude
    = collectLoop fuel doc nextElement e' elementsToInclude.
Proof.
  intros He He'. induction fuel as [|fuel IH]; intros next acc Hright; [reflexivity|].
  destruct next as [r|]; [|reflexivity]. cbn [collectLoop].
  rewrite (right_of_start_outside s r e Hright He).
  rewrite (right_of_start_outside s r e' Hright He').
  apply IH. destruct (getNextElement doc r) as [r'|] eqn:E; [|exact I].
  apply (right_of_start_step doc s r r' Hright E).
Qed.

(** X5: an end element that is the start element itself or lies inside it is
    never met by the walk of [extractElementsRange], which only visits
    elements outside the start element: the range then runs on to the end of
    the document, and is the same for every such end element. *)
Theorem X5_end_inside_start_is_ignored (doc : document)
    (startElement endElement otherEnd : elementRef) :
  (exists deeper, position endElement = deeper ++ position startElement) ->
  (exists deeper, position otherEnd = deeper ++ position startElement) ->
  extractElementsRange doc startElement endElement
  = extractElementsRange doc startElement otherEnd.
Proof.
  intros He He'. unfold extractElementsRange.
  rewrite (collectLoop_ignores_inner_end doc startElement endElement otherEnd
             _ He He'); [reflexivity|].
  destruct (getNextElement doc startElement) as [r|] eqn:E; [|exact I].
  apply getNextElement_position in E. exact E.
Qed.

Lemma X5_end_inside_start_is_ignored_witness :
  extractElementsRange Examples.nested
    (ElementRef [1; 0]
       (Element (lit "body") []
          [Element (lit "div") [] [Element (lit "p") [] [Text startMarker]]]))
    (ElementRef [0; 0; 1; 0] (Element (lit "p") [] [Text startMarker]))
  = extractElementsRange Examples.nested
      (ElementRef [1; 0]
         (Element (lit "body") []
            [Element (lit "div") [] [Element (lit "p") [] [Text startMarker]]]))
      (ElementRef [0; 1; 0]
         (Element (lit "div") [] [Element (lit "p") [] [Text startMarker]])).
Proof.
  apply (X5_end_inside_start_is_ignored Examples.nested).
  - exists [0; 0]. reflexivity.
  - exists [0]. reflexivity.
Defined.

(** [convertHtmlToMarkdown] is [convertHtmlToMarkdownCatching] on an engine
    on which the emitter never throws. *)
Lemma scoped_catching_returning
    (parseFromString : jsstring -> option document) (html : jsstring) :
  convertHtmlToMarkdownCatching parseFromString (fun _ => false) html
  = convertHtmlToMarkdown parseFromString html.
Proof.
  unfold convertHtmlToMarkdownCatching, convertHtmlToMarkdown.
  destruct (parseFromString html) as [raw|]; [|reflexivity].
  destruct (extractSpecificSection (removeUnwantedElements raw)) as [[c|]|];
    reflexivity.
Qed.

(** X6: the scoped [convertHtmlToMarkdown] always comes to an end.  The only
    error it throws is its own fixed message, and it throws exactly when the
    parser throws or the emitter throws on the extracted container (so never
    when the range is not found, the emitter not being called then).  A
    string it returns is one that [trim] leaves as it is: the notice, or the
    trimmed Markdown. *)
Theorem X6_scoped_conversion_outcomes (parseFromString : jsstring -> option document)
    (processElementThrows : node -> bool) (html : jsstring) :
  exists outcome,
    convertHtmlToMarkdownCatching parseFromString processElementThrows html
    = Ran outcome
    /\ (forall message, outcome = Throw message -> message = parseFailure)
    /\ (forall value, outcome = Return value -> trim value = value)
    /\ ((exists message, outcome = Throw message)
        <-> parseFromString html = None
            \/ exists raw container,
                 parseFromString html = Some raw
                 /\ extractSpecificSection (removeUnwantedElements raw)
                    = Ran (Some container)
                 /\ processElementThrows container = true)
    /\ (forall raw,
          parseFromString html = Some raw ->
          Spec.startAbsent (removeUnwantedElements raw)
          \/ Spec.endAbsent (removeUnwantedElements raw) ->
          outcome = Return warning).
Proof.
  unfold convertHtmlToMarkdownCatching.
  destruct (parseFromString html) as [raw|] eqn:Hparse.
  - destruct (ExtractorClaims.extractSpecificSection_cases (removeUnwantedElements raw))
      as [[Hnot Hnone]|[s [e [more [_ [_ Hsome]]]]]].
    + rewrite Hnone. exists (Return warning). split; [reflexivity|].
      split; [intros message H; discriminate|].
      split; [intros value H; injection H as <-; vm_compute; reflexivity|].
      split; [|intros; reflexivity].
      split.
      * intros [message H]. discriminate.
      * intros [H|[raw' [container [Hraw [Hextract _]]]]]; [discriminate|].
        injection Hraw as <-. rewrite Hnone in Hextract. discriminate.
    + rewrite Hsome. cbn [convertExtractedCatching].
      destruct (processElementThrows
                  (Element (lit "div") [] (cloneNode (target s) :: more))) eqn:Hthrows.
      * exists (Throw parseFailure). split; [reflexivity|].
        split; [intros message H; injection H as <-; reflexivity|].
        split; [intros value H; discriminate|].
        split.
        -- split; [|intros _; exists parseFailure; reflexivity].
           intros _. right. exists raw. eexists. split; [reflexivity|].
           split; [exact Hsome | exact Hthrows].
        -- intros raw' Hraw Hnot. injection Hraw as <-. exfalso.
           destruct Hnot as [H|[s' [before [after [Hfind [Hall Hend]]]]]].
           ++ rewrite (ExtractorClaims.extractSpecificSection_start_absent _ H)
                in Hsome. discriminate.
           ++ rewrite (ExtractorClaims.extractSpecificSection_end_absent
                         _ s' before after Hfind Hall Hend) in Hsome. discriminate.
      * eexists. split; [reflexivity|].
        split; [intros message H; discriminate|].
        split; [intros value H; injection H as <-; apply trim_idem|].
        split.
        -- split; [intros [message H]; discriminate|].
           intros [H|[raw' [container [Hraw [Hextract Hc]]]]]; [discriminate|].
           injection Hraw as <-. rewrite Hsome in Hextract.
           injection Hextract as <-. rewrite Hthrows in Hc. discriminate.
        -- intros raw' Hraw Hnot. injection Hraw as <-. exfalso.
           destruct Hnot as [H|[s' [before [after [Hfind [Hall Hend]]]]]].
           ++ rewrite (ExtractorClaims.extractSpecificSection_start_absent _ H)
                in Hsome. discriminate.
           ++ rewrite (ExtractorClaims.extractSpecificSection_end_absent
                         _ s' before after Hfind Hall Hend) in Hsome. discriminate.
  - exists (Throw parseFailure). split; [reflexivity|].
    split; [intros message H; injection H as <-; reflexivity|].
    split; [intros value H; discriminate|].
    split; [|intros raw H; discriminate].
    split; [intros _; left; reflexivity | intros _; exists parseFailure; reflexivity].
Qed.

End ExtractorProps.

(** ** More on the sanitizer *)
Module SanitizerProps.
Import JsString Dom JsStringFacts DomFacts ConverterJs SanitizerClaims.

(** *** The five passes as one *)

Lemma tagIn_app (names names' : list jsstring) (tag : jsstring) :
  tagIn (names ++ names') tag = tagIn names tag || tagIn names' tag.
Proof. unfold tagIn. apply existsb_app. Qed.

Lemma matches_tags_app (names names' : list jsstring) (n : node) :
  matches (Tags (names ++ names')) n
  = matches (Tags names) n || matches (Tags names') n.
Proof. destruct n; simpl; try reflexivity. apply tagIn_app. Qed.

Lemma strip_twice (names names' : list jsstring) (kids : list node) :
  Forall (fun kid => removeAll (Tags names') (removeAll (Tags names) kid)
                     = removeAll (Tags (names ++ names')) kid) kids ->
  flat_map (fun kid => if matches (Tags names') kid then []
                       else [removeAll (Tags names') kid])
    (flat_map (fun kid => if matches (Tags names) kid then []
                          else [removeAll (Tags names) kid]) kids)
  = flat_map (fun kid => if matches (Tags (names ++ names')) kid then []
                         else [removeAll (Tags (names ++ names')) kid]) kids.
Proof.
  induction 1 as [|kid kids Hkid _ IH]; simpl; [reflexivity|].
  rewrite flat_map_app, IH, matches_tags_app. f_equal.
  destruct (matches (Tags names) kid); simpl; [reflexivity|].
  rewrite matches_removeAll.
  destruct (matches (Tags names') kid); [reflexivity|]. rewrite Hkid. reflexivity.
Qed.

Lemma removeAll_twice (names names' : list jsstring) (n : node) :
  removeAll (Tags names') (removeAll (Tags names) n)
  = removeAll (Tags (names ++ names')) n.
Proof.
  induction n as [d|d|tag attrs kids IH] using node_nested_ind; try reflexivity.
  simpl. f_equal. apply strip_twice. exact IH.
Qed.

Lemma removeAllIn_twice (names names' : list jsstring) (doc : document) :
  removeAllIn (Tags names') (removeAllIn (Tags names) doc)
  = removeAllIn (Tags (names ++ names')) doc.
Proof.
  unfold removeAllIn. simpl. f_equal. apply strip_twice.
  apply Forall_forall. intros kid _. apply removeAll_twice.
Qed.

Lemma passes_as_one (selectors done : list jsstring) (doc : document) :
  fold_left (fun doc selector => removeAllIn (Tags [selector]) doc) selectors
    (removeAllIn (Tags done) doc)
  = removeAllIn (Tags (done ++ selectors)) doc.
Proof.
  revert done. induction selectors as [|s selectors IH]; intros done; simpl.
  - rewrite app_nil_r. reflexivity.
  - rewrite removeAllIn_twice, IH, <- app_assoc. reflexivity.
Qed.

Lemma removeAllIn_nothing (doc : document) : removeAllIn (Tags []) doc = doc.
Proof.
  apply removeAllIn_unchanged. destruct doc as [kids]. unfold Spec.noMatchIn. simpl.
  induction kids as [|kid kids IH]; simpl; [reflexivity|]. rewrite IH.
  assert (H : forall n, Spec.noMatchBelow (Tags []) n = true).
  { induction n as [d|d|tag attrs ks IHn] using node_nested_ind; try reflexivity.
    simpl. induction IHn as [|k ks Hk _ IHks]; simpl; [reflexivity|].
    rewrite Hk, IHks. destruct k; reflexivity. }
  rewrite H. destruct kid; reflexivity.
Qed.

(** X7: the five passes of [removeUnwantedElements], one selector after the
    other, leave the document that a single pass leaves which removes every
    element with one of the five tag names. *)
Theorem X7_sanitizer_is_one_pass (doc : document) :
  removeUnwantedElements doc = removeAllIn (Tags unwantedSelectors) doc.
Proof.
  unfold removeUnwantedElements.
  rewrite <- (removeAllIn_nothing doc) at 1. apply passes_as_one.
Qed.

(** *** The elements left after the passes *)

Lemma eachChild_intro (below : handle -> node -> list elementRef) (kids : list node)
    (parent : handle) (index : nat) (kid : node) :
  In kid kids -> isElement kid = true ->
  exists j,
    In (ElementRef (j :: parent) kid) (eachChild below parent index kids)
    /\ forall r, In r (below (j :: parent) kid) ->
                 In r (eachChild below parent index kids).
Proof.
  revert index. induction kids as [|k rest IH]; intros index; [contradiction|].
  intros [->|Hin] Hel; cbn [eachChild].
  - exists index. rewrite Hel. split.
    + apply in_or_app. left. left. reflexivity.
    + intros r Hr. apply in_or_app. left. right. exact Hr.
  - destruct (IH (S index) Hin Hel) as [j [Hhead Hbelow]]. exists j. split.
    + apply in_or_app. right. exact Hhead.
    + intros r Hr. apply in_or_app. right. apply Hbelow. exact Hr.
Qed.

Lemma noMatch_kids_elements (sel : selector) (kids : list node) (parent : handle)
    (index : nat) :
  Forall (fun kid => forall h,
            Spec.noMatchBelow sel kid = true
            <-> (forall r, In r (descendantRefs h kid) ->
                           matches sel (target r) = false)) kids ->
  forallb (fun kid => negb (matches sel kid) && Spec.noMatchBelow sel kid) kids = true
  <-> (forall r, In r (eachChild descendantRefs parent index kids) ->
                 matches sel (target r) = false).
Proof.
  intros IH. rewrite Forall_forall in IH. split.
  - intros H r Hr.
    apply ExtractorProps.eachChild_in in Hr as [kid [j [Hkid [Hel Hr]]]].
    rewrite forallb_forall in H. specialize (H kid Hkid).
    apply andb_prop in H as [Hm Hb]. apply negb_true_iff in Hm.
    destruct Hr as [->|Hr]; [exact Hm|].
    apply (proj1 (IH kid Hkid (j :: parent)) Hb r Hr).
  - intros H. apply forallb_forall. intros kid Hkid.
    destruct (isElement kid) eqn:Hel.
    + destruct (eachChild_intro descendantRefs kids parent index kid Hkid Hel)
        as [j [Hhead Hbelow]].
      pose proof (H _ Hhead) as Hm. cbn [target] in Hm. rewrite Hm. simpl.
      apply (proj2 (IH kid Hkid (j :: parent))). intros r Hr. apply H, Hbelow, Hr.
    + destruct kid; try discriminate; reflexivity.
Qed.

Lemma noMatchBelow_elements (sel : selector) (n : node) (h : handle) :
  Spec.noMatchBelow sel n = true
  <-> (forall r, In r (descendantRefs h n) -> matches sel (target r) = false).
Proof.
  revert h. induction n as [d|d|tag attrs kids IH] using node_nested_ind; intros h;
    try (split; [intros _ r Hr; contradiction | reflexivity]).
  apply (noMatch_kids_elements sel kids h 0 IH).
Qed.

Lemma noMatchIn_elements (sel : selector) (doc : document) :
  Spec.noMatchIn sel doc = true
  <-> (forall r, In r (allElements doc) -> matches sel (target r) = false).
Proof.
  apply (noMatch_kids_elements sel (documentChildNodes doc) [] 0).
  apply Forall_forall. intros kid _ h. apply noMatchBelow_elements.
Qed.

Lemma tagIn_member (names : list jsstring) (tag s : jsstring) :
  tagIn names tag = false -> In s names -> tag === s = false.
Proof.
  unfold tagIn. intros H Hs.
  destruct (tag === s) eqn:E; [|reflexivity].
  rewrite <- H. symmetry. apply existsb_exists. exists s. split; assumption.
Qed.

(** X8: after [removeUnwantedElements] no element of the document, at any
    depth, is a [script], [style], [meta], [link] or [noscript]. *)
Theorem X8_sanitized_has_no_unwanted_element (doc : document) (r : elementRef) :
  In r (allElements (removeUnwantedElements doc)) ->
  tagIn unwantedSelectors (tagNameLower (target r)) = false.
Proof.
  intros Hr.
  assert (H : forall s, In s unwantedSelectors ->
                        tagNameLower (target r) === s = false).
  { intros s Hs.
    pose proof (proj1 (noMatchIn_elements (Tags [s]) (removeUnwantedElements doc))
                  (removeUnwantedElements_clean doc s Hs) r Hr) as Hm.
    pose proof (ExtractorFacts.allElements_isElement _ _ Hr) as Hel.
    destruct (target r); try discriminate. simpl in *.
    rewrite orb_false_r in Hm. exact Hm. }
  unfold tagIn. destruct (existsb (eqb (tagNameLower (target r))) unwantedSelectors)
    eqn:E; [|reflexivity].
  apply existsb_exists in E as [s [Hs Heq]]. rewrite (H s Hs) in Heq. discriminate.
Qed.

Lemma X8_sanitized_has_no_unwanted_element_witness :
  tagIn unwantedSelectors
    (tagNameLower (target (ElementRef [0; 0] (Element (lit "head") [] [])))) = false.
Proof.
  apply (X8_sanitized_has_no_unwanted_element Examples.scripted).
  vm_compute. tauto.
Defined.

(** X9: the sanitizer removes nothing else: a document without any element of
    the five tag names is left exactly as it is. *)
Theorem X9_sanitizer_keeps_clean_document (doc : document) :
  (forall r, In r (allElements doc) ->
             tagIn unwantedSelectors (tagNameLower (target r)) = false) ->
  removeUnwantedElements doc = doc.
Proof.
  intros H. apply passes_unchanged. intros s Hs.
  apply noMatchIn_elements. intros r Hr.
  pose proof (tagIn_member _ _ s (H r Hr) Hs) as E.
  destruct (target r); try reflexivity. simpl in *. rewrite E. reflexivity.
Qed.

Lemma X9_sanitizer_keeps_clean_document_witness :
  removeUnwantedElements Examples.nested = Examples.nested.
Proof.
  apply (X9_sanitizer_keeps_clean_document Examples.nested).
  intros r Hr. vm_compute in Hr.
  repeat (destruct Hr as [<-|Hr]; [reflexivity|]). contradiction.
Defined.

End SanitizerProps.

(** ** More on the emitter *)
Module EmitterProps.
Import JsString Dom JsStringFacts DomFacts ConverterJs EmitterFacts StringProps.

(** X10: [processElement] looks at the child nodes of its argument only, and
    renders them one after the other: the rendering of a sequence of nodes is
    the rendering of its first part followed by the rendering of the rest,
    whatever the elements are that hold them. *)
Theorem X10_processElement_concatenates (tag tag1 tag2 : jsstring)
    (attrs attrs1 attrs2 : list (jsstring * jsstring)) (kids1 kids2 : list node) :
  processElement (Element tag attrs (kids1 ++ kids2))
  = processElement (Element tag1 attrs1 kids1)
    ++ processElement (Element tag2 attrs2 kids2).
Proof.
  rewrite !processElement_concat. cbn [childNodes].
  rewrite map_app, concat_app. reflexivity.
Qed.

(** X11: a text node made of white space only and a comment add nothing to
    the rendering of the nodes around them. *)
Theorem X11_blank_nodes_are_invisible (tag : jsstring)
    (attrs : list (jsstring * jsstring)) (kids1 kids2 : list node) (blank : node) :
  match blank with
  | Text data => forallb isWhiteSpace data = true
  | Comment _ => True
  | Element _ _ _ => False
  end ->
  processElement (Element tag attrs (kids1 ++ blank :: kids2))
  = processElement (Element tag attrs (kids1 ++ kids2)).
Proof.
  intros H. rewrite !processElement_concat. cbn [childNodes].
  rewrite !map_app, !concat_app. cbn [map List.concat]. f_equal.
  destruct blank as [data|data|t a k]; [|reflexivity|contradiction].
  cbn [appendNode textContent]. rewrite (proj2 (trim_nil data) H). reflexivity.
Qed.

Lemma X11_blank_nodes_are_invisible_witness :
  processElement
    (Element (lit "p") [] ([Text (lit "a")] ++ Text (lit "   ") :: [Text (lit "b")]))
  = processElement (Element (lit "p") [] ([Text (lit "a")] ++ [Text (lit "b")])).
Proof.
  apply (X11_blank_nodes_are_invisible (lit "p") [] [Text (lit "a")] [Text (lit "b")]
           (Text (lit "   "))).
  reflexivity.
Defined.

(** X12: headings and inline formatting are flat: for [h1] to [h6], [strong],
    [b], [em], [i], [code] and [var] the rendering is made of the tag and the
    text content alone, so two elements with the same tag and the same text
    are rendered alike whatever markup lies inside them. *)
Theorem X12_inline_elements_are_flat (element other : node) :
  tagIn [lit "h1"; lit "h2"; lit "h3"; lit "h4"; lit "h5"; lit "h6"; lit "strong";
         lit "b"; lit "em"; lit "i"; lit "code"; lit "var"]
    (tagNameLower element) = true ->
  tagNameLower other = tagNameLower element ->
  textContent other = textContent element ->
  convertElementToMarkdown other = convertElementToMarkdown element.
Proof.
  intros Htag Hsame Htext.
  unfold convertElementToMarkdown, convertElementToMarkdown_. cbv zeta.
  rewrite Hsame, Htext.
  destruct (negb (truthy (trim (textContent element)))
            && negb (tagIn [lit "br"; lit "hr"; lit "img"] (tagNameLower element)));
    [reflexivity|].
  destruct (tagNameLower element === lit "h1") eqn:E1; [reflexivity|].
  destruct (tagNameLower element === lit "h2") eqn:E2; [reflexivity|].
  destruct (tagNameLower element === lit "h3") eqn:E3; [reflexivity|].
  destruct (tagNameLower element === lit "h4") eqn:E4; [reflexivity|].
  destruct (tagNameLower element === lit "h5") eqn:E5; [reflexivity|].
  destruct (tagNameLower element === lit "h6") eqn:E6; [reflexivity|].
  destruct (tagNameLower element === lit "p") eqn:Ep.
  { exfalso. apply eqb_eq in Ep. rewrite Ep in Htag. vm_compute in Htag.
    discriminate. }
  destruct (tagNameLower element === lit "br") eqn:Ebr.
  { exfalso. apply eqb_eq in Ebr. rewrite Ebr in Htag. vm_compute in Htag.
    discriminate. }
  destruct (tagNameLower element === lit "hr") eqn:Ehr.
  { exfalso. apply eqb_eq in Ehr. rewrite Ehr in Htag. vm_compute in Htag.
    discriminate. }
  destruct (tagNameLower element === lit "strong") eqn:Es; [reflexivity|].
  destruct (tagNameLower element === lit "b") eqn:Eb; [reflexivity|].
  destruct (tagNameLower element === lit "em") eqn:Ee; [reflexivity|].
  destruct (tagNameLower element === lit "i") eqn:Ei; [reflexivity|].
  destruct (tagNameLower element === lit "code") eqn:Ec; [reflexivity|].
  destruct (tagNameLower element === lit "var") eqn:Ev; [reflexivity|].
  exfalso. unfold tagIn in Htag. cbn [existsb] in Htag.
  rewrite E1, E2, E3, E4, E5, E6, Es, Eb, Ee, Ei, Ec, Ev in Htag. discriminate.
Qed.

Lemma X12_inline_elements_are_flat_witness :
  convertElementToMarkdown
    (Element (lit "strong") [] [Element (lit "em") [] [Text (lit "x")]; Text (lit "y")])
  = convertElementToMarkdown (Element (lit "strong") [] [Text (lit "xy")]).
Proof.
  apply (X12_inline_elements_are_flat
           (Element (lit "strong") [] [Text (lit "xy")])
           (Element (lit "strong") []
              [Element (lit "em") [] [Text (lit "x")]; Text (lit "y")]));
    reflexivity.
Defined.

(** *** The lines of a table *)

Lemma join_without (c : N) (sep : jsstring) (parts : list jsstring) :
  ~ In c sep -> (forall part, In part parts -> ~ In c part) ->
  ~ In c (join sep parts).
Proof.
  intros Hsep. induction parts as [|part parts IH]; intros H; [intros []|].
  destruct parts as [|part' parts]; [apply H; left; reflexivity|].
  change (join sep (part :: part' :: parts))
    with (part ++ sep ++ join sep (part' :: parts)).
  intros Hin. apply in_app_or in Hin as [Hin|Hin];
    [exact (H part (or_introl eq_refl) Hin)|].
  apply in_app_or in Hin as [Hin|Hin]; [exact (Hsep Hin)|].
  apply IH; [|exact Hin]. intros p Hp. apply H. right. exact Hp.
Qed.

Lemma replaceNewlines_without (s : jsstring) : ~ In 10%N (replaceNewlines s).
Proof.
  unfold replaceNewlines. induction s as [|c s IH]; simpl; [tauto|].
  intros [H|H]; [|exact (IH H)].
  destruct (N.eqb c 10) eqn:E; [discriminate|].
  apply N.eqb_neq in E. congruence.
Qed.

Lemma tableRow_one_line (row : node) :
  exists line, Spec.tableRow processElement row = line ++ nl /\ ~ In 10%N line.
Proof.
  exists (lit "| "
          ++ join (lit " | ")
               (map (fun cell => replaceNewlines (trim (processElement cell)))
                  (Spec.cells row))
          ++ lit " |").
  split; [unfold Spec.tableRow; rewrite <- !app_assoc; reflexivity|].
  intros H. apply in_app_or in H as [H|H].
  { vm_compute in H. intuition discriminate. }
  apply in_app_or in H as [H|H].
  - revert H. apply join_without.
    + vm_compute. intuition discriminate.
    + intros part Hp. apply in_map_iff in Hp as [cell [<- _]].
      apply replaceNewlines_without.
  - vm_compute in H. intuition discriminate.
Qed.

Lemma separatorRow_one_line (row : node) :
  exists line, Spec.separatorRow row = line ++ nl /\ ~ In 10%N line.
Proof.
  exists (lit "| " ++ join (lit " | ") (repeat (lit "---") (List.length (Spec.cells row)))
          ++ lit " |").
  split; [unfold Spec.separatorRow; rewrite <- !app_assoc; reflexivity|].
  intros H. apply in_app_or in H as [H|H].
  { vm_compute in H. intuition discriminate. }
  apply in_app_or in H as [H|H].
  - revert H. apply join_without.
    + vm_compute. intuition discriminate.
    + intros part Hp. apply repeat_spec in Hp. subst part.
      vm_compute. intuition discriminate.
  - vm_compute in H. intuition discriminate.
Qed.

Lemma tableRows_lines (rows : list node) :
  exists lines,
    List.concat (map (Spec.tableRow processElement) rows)
    = List.concat (map (fun line => line ++ nl) lines)
    /\ Forall (fun line => ~ In 10%N line) lines
    /\ List.length lines = List.length rows.
Proof.
  induction rows as [|row rows [lines [Hc [Hl Hn]]]].
  - exists []. repeat split. constructor.
  - destruct (tableRow_one_line row) as [line [Hrow Hline]].
    exists (line :: lines). cbn [map List.concat List.length].
    rewrite Hrow, Hc, Hn. repeat split. constructor; assumption.
Qed.

(** X13: [processTable] renders a table with rows as a block of whole lines:
    an empty line, then one line for each [tr] (and one more for the
    separator when the first row has a [th]), each ended by a line break and
    holding no other one, whatever line breaks the cells contain. *)
Theorem X13_table_rows_are_single_lines (table first : node) (rest : list node) :
  querySelectorAll table (Tags [lit "tr"]) = first :: rest ->
  exists lines,
    processTable table
    = nl ++ List.concat (map (fun line => line ++ nl) lines) ++ nl
    /\ Forall (fun line => ~ In 10%N line) lines
    /\ List.length lines
       = (if Spec.hasHeaderCell first then 2 else 1) + List.length rest.
Proof.
  intros Hrows. rewrite EmitterClaims.processTable_spec. unfold Spec.tableMarkdown.
  rewrite Hrows.
  destruct (tableRow_one_line first) as [line [Hrow Hline]].
  destruct (tableRows_lines rest) as [lines [Hc [Hl Hn]]].
  destruct (Spec.hasHeaderCell first).
  - destruct (separatorRow_one_line first) as [sep [Hsep Hsepline]].
    exists (line :: sep :: lines). cbn [map List.concat List.length].
    rewrite Hrow, Hsep, Hc, Hn, <- !app_assoc. repeat split.
    repeat constructor; assumption.
  - exists (line :: lines). cbn [map List.concat List.length app].
    rewrite Hrow, Hc, Hn, <- !app_assoc. repeat split.
    constructor; assumption.
Qed.

Lemma X13_table_rows_are_single_lines_witness :
  exists lines,
    processTable
      (Element (lit "table") []
         [Element (lit "tr") [] [Element (lit "td") [] [Text [97; 10; 98]%N]]])
    = nl ++ List.concat (map (fun line => line ++ nl) lines) ++ nl
    /\ Forall (fun line => ~ In 10%N line) lines
    /\ List.length lines
       = (if Spec.hasHeaderCell
               (Element (lit "tr") [] [Element (lit "td") [] [Text [97; 10; 98]%N]])
          then 2 else 1) + List.length (@nil node).
Proof.
  apply (X13_table_rows_are_single_lines
           (Element (lit "table") []
              [Element (lit "tr") [] [Element (lit "td") [] [Text [97; 10; 98]%N]]])
           (Element (lit "tr") [] [Element (lit "td") [] [Text [97; 10; 98]%N]]) []).
  reflexivity.
Defined.

(** *** The conversion of the whole body *)

(** [convertHtmlToMarkdown] is [convertHtmlToMarkdownCatching] on an engine
    on which the emitter never throws. *)
Lemma unscoped_catching_returning
    (parseFromString : jsstring -> option document) (html : jsstring) :
  convertHtmlToMarkdownCatching parseFromString (fun _ => false) html
  = convertHtmlToMarkdown parseFromString html.
Proof. reflexivity. Qed.

(** X14: the only error [convertHtmlToMarkdown] of [js/converter.js] throws
    is its own fixed message, and a string it returns is one that [trim]
    leaves as it is.  It throws when the parser throws, when the sanitized
    document has no element at all, and when the emitter throws on the body
    (on the root element when there is no body); in every other case it
    returns the trimmed rendering of that element. *)
Theorem X14_unscoped_conversion_outcomes
    (parseFromString : jsstring -> option document)
    (processElementThrows : node -> bool) (html : jsstring) :
  (forall message,
     convertHtmlToMarkdownCatching parseFromString processElementThrows html
     = Throw message ->
     message = parseFailure)
  /\ (forall value,
        convertHtmlToMarkdownCatching parseFromString processElementThrows html
        = Return value ->
        trim value = value)
  /\ (parseFromString html = None ->
      convertHtmlToMarkdownCatching parseFromString processElementThrows html
      = Throw parseFailure)
  /\ (forall doc,
        parseFromString html = Some doc ->
        documentElement (removeUnwantedElements doc) = None ->
        convertHtmlToMarkdownCatching parseFromString processElementThrows html
        = Throw parseFailure)
  /\ (forall doc root,
        parseFromString html = Some doc ->
        documentElement (removeUnwantedElements doc) = Some root ->
        convertHtmlToMarkdownCatching parseFromString processElementThrows html
        = if processElementThrows
               match body (removeUnwantedElements doc) with
               | Some b => b
               | None => root
               end
          then Throw parseFailure
          else Return (trim (processElement
                               match body (removeUnwantedElements doc) with
                               | Some b => b
                               | None => root
                               end))).
Proof.
  unfold convertHtmlToMarkdownCatching.
  split; [|split; [|split; [|split]]].
  - intros message. destruct (parseFromString html) as [doc|].
    + cbv zeta.
      destruct (match body (removeUnwantedElements doc) with
                | Some b => Some b
                | None => documentElement (removeUnwantedElements doc)
                end) as [b|].
      * destruct (processElementThrows b); intros H; [|discriminate].
        injection H as <-. reflexivity.
      * intros H. injection H as <-. reflexivity.
    + intros H. injection H as <-. reflexivity.
  - intros value. destruct (parseFromString html) as [doc|]; [|discriminate].
    cbv zeta.
    destruct (match body (removeUnwantedElements doc) with
              | Some b => Some b
              | None => documentElement (removeUnwantedElements doc)
              end) as [b|]; [|discriminate].
    destruct (processElementThrows b); intros H; [discriminate|].
    injection H as <-. apply trim_idem.
  - intros ->. reflexivity.
  - intros doc -> Hnone. unfold body. rewrite Hnone. reflexivity.
  - intros doc root -> Hroot.
    destruct (body (removeUnwantedElements doc)) as [b|].
    + reflexivity.
    + rewrite Hroot. reflexivity.
Qed.

End EmitterProps.

(** ** The page: what the handlers show *)
Module UiProps.
Import JsString Dom JsStringFacts Ui.


Lemma classList_add_in (token : jsstring) (classes : list jsstring) :
  In token (classList_add token classes).
Proof.
  unfold classList_add. destruct (existsb (eqb token) classes) eqn:E.
  - apply existsb_exists in E as [x [Hx Heq]]. apply eqb_eq in Heq. subst x. exact Hx.
  - apply in_or_app. right. left. reflexivity.
Qed.

Lemma classList_remove_out (token : jsstring) (classes : list jsstring) :
  ~ In token (classList_remove token classes).
Proof.
  unfold classList_remove. intros H. apply filter_In in H as [_ H].
  rewrite eqb_refl in H. discriminate.
Qed.



(** X16: with the scoped converter a range that is not found is shown as a
    success: the notice becomes the output text, the output section is shown,
    and the status line says that the conversion of the file is done. *)
Theorem X16_range_not_found_shown_as_success
    (parseFromString : jsstring -> option document) (f : file) (html : jsstring)
    (raw : document) (p : page) :
  parseFromString html = Some raw ->
  Spec.startAbsent (Part001.removeUnwantedElements raw)
  \/ Spec.endAbsent (Part001.removeUnwantedElements raw) ->
  exists p',
    processFile_resume (Part001.convertHtmlToMarkdown parseFromString) f (Some html) p
    = Ran p'
    /\ output_textContent p' = Part001.warning
    /\ In (lit "show") (outputSection_classList p')
    /\ status_textContent p' = conversionDone ++ name f
    /\ status_classList p' = [lit "status"; lit "success"; lit "show"]
    /\ loading_display p' = lit "none".
Proof.
  intros Hparse Hnot.
  assert (Hconvert : Part001.convertHtmlToMarkdown parseFromString html
                     = Ran (Return Part001.warning)).
  { unfold Part001.convertHtmlToMarkdown. rewrite Hparse.
    destruct Hnot as [H|[s [before [after [Hfind [Hall Hend]]]]]].
    - rewrite (ExtractorClaims.extractSpecificSection_start_absent _ H). reflexivity.
    - rewrite (ExtractorClaims.extractSpecificSection_end_absent _ s before after
                 Hfind Hall Hend). reflexivity. }
  unfold processFile_resume. cbv zeta. rewrite Hconvert.
  eexists. split; [reflexivity|]. unfold showLoading, showStatus.
  cbn [loading_display status_classList outputSection_classList
       output_textContent status_textContent statusTypeName].
  split; [reflexivity|]. split; [apply classList_add_in|].
  repeat split; reflexivity.
Qed.

Lemma X16_range_not_found_shown_as_success_witness :
  exists p',
    processFile_resume (Part001.convertHtmlToMarkdown (fun _ => Some Examples.nested))
      (File (lit "a.html") (lit "text/html")) (Some [])
      (Page [] [] [] [] [] (lit "block") 0)
    = Ran p'
    /\ output_textContent p' = Part001.warning
    /\ In (lit "show") (outputSection_classList p')
    /\ status_textContent p' = conversionDone ++ name (File (lit "a.html") (lit "text/html"))
    /\ status_classList p' = [lit "status"; lit "success"; lit "show"]
    /\ loading_display p' = lit "none".
Proof.
  apply (X16_range_not_found_shown_as_success (fun _ => Some Examples.nested)
           (File (lit "a.html") (lit "text/html")) [] Examples.nested
           (Page [] [] [] [] [] (lit "block") 0) eq_refl).
  right.
  exists (ElementRef [0]
            (Element (lit "html") []
               [Element (lit "head") [] [];
                Element (lit "body") []
                  [Element (lit "div") []
                     [Element (lit "p") [] [Text Part001.startMarker]]]])),
    [],
    [ElementRef [0; 0] (Element (lit "head") [] []);
     ElementRef [1; 0]
       (Element (lit "body") []
          [Element (lit "div") [] [Element (lit "p") [] [Text Part001.startMarker]]]);
     ElementRef [0; 1; 0]
       (Element (lit "div") [] [Element (lit "p") [] [Text Part001.startMarker]]);
     ElementRef [0; 0; 1; 0] (Element (lit "p") [] [Text Part001.startMarker])].
  split; [reflexivity|]. split; [reflexivity|].
  intros e He. simpl in He.
  repeat (destruct He as [<-|He]; [reflexivity|]). contradiction.
Defined.

Lemma find_first (A : Type) (test : A -> bool) (l : list A) :
  match find test l with
  | Some x => exists skipped rest,
                l = skipped ++ x :: rest /\ test x = true
                /\ forall y, In y skipped -> test y = false
  | None => forall y, In y l -> test y = false
  end.
Proof.
  induction l as [|a l IH]; simpl; [intros y []|].
  destruct (test a) eqn:E.
  - exists [], l. repeat split; [exact E | intros y []].
  - destruct (find test l) as [x|].
    + destruct IH as [skipped [rest [-> [Hx Hs]]]].
      exists (a :: skipped), rest. repeat split; [exact Hx|].
      intros y [<-|Hy]; [exact E | apply Hs; exact Hy].
    + intros y [<-|Hy]; [exact E | apply IH; exact Hy].
Qed.

(** X17: [handleDrop] always takes the [drag-over] class off the drop zone.
    Of the dropped files it goes on with the first one that has the type
    [text/html] or a name ending in [.html] or [.htm], showing the loading
    indicator and hiding the status; when no file qualifies it shows the error
    status that asks for an HTML file and starts nothing, the output and the
    loading indicator staying as they were. *)
Theorem X17_handleDrop_takes_first_html_file (toLowerCase : jsstring -> jsstring)
    (files : list file) (p : page) :
  ~ In (lit "drag-over") (dropZone_classList (fst (handleDrop_begin toLowerCase files p)))
  /\ match snd (handleDrop_begin toLowerCase files p) with
     | Some htmlFile =>
         (exists skipped rest,
            files = skipped ++ htmlFile :: rest
            /\ isHtmlFile toLowerCase htmlFile = true
            /\ forall g, In g skipped -> isHtmlFile toLowerCase g = false)
         /\ loading_display (fst (handleDrop_begin toLowerCase files p)) = lit "block"
         /\ ~ In (lit "show")
              (status_classList (fst (handleDrop_begin toLowerCase files p)))
     | None =>
         (forall g, In g files -> isHtmlFile toLowerCase g = false)
         /\ status_textContent (fst (handleDrop_begin toLowerCase files p))
            = selectHtmlFile
         /\ status_classList (fst (handleDrop_begin toLowerCase files p))
            = [lit "status"; lit "error"; lit "show"]
         /\ loading_display (fst (handleDrop_begin toLowerCase files p))
            = loading_display p
         /\ output_textContent (fst (handleDrop_begin toLowerCase files p))
            = output_textContent p
     end.
Proof.
  unfold handleDrop_begin. cbv zeta.
  pose proof (find_first file (isHtmlFile toLowerCase) files) as Hfind.
  destruct (find (isHtmlFile toLowerCase) files) as [htmlFile|];
    cbn [fst snd]; unfold processFile_begin, hideStatus, showLoading, showStatus,
                     handleDragLeave;
    cbn [dropZone_classList status_classList loading_display status_textContent
         output_textContent statusTypeName].
  - split; [apply classList_remove_out|]. split; [exact Hfind|].
    split; [reflexivity | apply classList_remove_out].
  - split; [apply classList_remove_out|]. split; [exact Hfind|].
    repeat split; reflexivity.
Qed.

(** X18: the callback that [showStatus] hands to [setTimeout] hides whatever
    status is shown when it runs: after two calls of [showStatus], the first
    callback to run takes the second status off the page, its text staying
    in place, while the callback of the second call is still waiting. *)
Theorem X18_timer_hides_current_status (message1 message2 : jsstring)
    (type1 type2 : statusType) (p : page) :
  ~ In (lit "show")
      (status_classList
         (timerFires (showStatus message2 type2 (showStatus message1 type1 p))))
  /\ status_textContent
       (timerFires (showStatus message2 type2 (showStatus message1 type1 p)))
     = message2
  /\ pendingTimers
       (timerFires (showStatus message2 type2 (showStatus message1 type1 p)))
     = S (pendingTimers p).
Proof.
  unfold timerFires, showStatus, hideStatus.
  cbn [pendingTimers status_classList status_textContent].
  split; [apply classList_remove_out|]. split; reflexivity.
Qed.

End UiProps.
